(** * Notebook editor toolbar: action-layout strategies and status-bar providers

    A shallow embedding of
    - the three layout strategies of the notebook editor toolbar
      ([FixedLabelStrategy], [FixedLabellessStrategy], [DynamicLabelStrategy])
      together with the part of [NotebookEditorToolbar] that drives them, and
    - [NotebookStatusBarService.getStatusBarItemsForDocument].

    Pixel widths are integers ([Z]).  A JavaScript exception (reading a
    property of [undefined]) is the [None] of [option].  The [IActionModel]
    objects are shared and mutated in place: the array
    [editorToolbar.primaryActions] is the store, an object is named by its
    index in it, and every local array of the source ([actions],
    [renderActions], [visibleActions], the slices) is a list of such
    references that is dereferenced when the source reads a field. *)

From stdpp Require Import base decidable option list numbers strings.

Local Open Scope Z_scope.

(** ** Data model *)

(** The classes the source tests with [instanceof]. *)
Inductive ActionClass :=
  | MenuItemAction
  | SubmenuItemAction
  | Separator
  | ToggleMenuAction
  | Action.

#[global] Instance ActionClass_eq_dec : EqDecision ActionClass.
Proof. solve_decision. Defined.

Record IAction := { id : string; class : ActionClass }.

#[global] Instance IAction_eq_dec : EqDecision IAction.
Proof. solve_decision. Defined.

Record IActionModel := {
  action : IAction;
  size : Z;
  visible : bool;
  renderLabel : bool
}.

#[global] Instance IActionModel_eq_dec : EqDecision IActionModel.
Proof. solve_decision. Defined.

Definition ICON_ONLY_ACTION_WIDTH : Z := 21.
Definition TOGGLE_MORE_ACTION_WIDTH : Z := 21.
Definition ACTION_PADDING : Z := 8.

(** The three implementations of [IActionLayoutStrategy]. *)
Inductive Strategy :=
  | FixedLabelStrategy
  | FixedLabellessStrategy
  | DynamicLabelStrategy.

(** What the view factory [actionProvider] can return. *)
Inductive ViewItem :=
  | NotebookKernelActionViewItem
  | ActionViewWithLabel
  | MenuEntryActionViewItem
  | undefined.

(** The value returned by [calculateActions]. *)
Record Partition := {
  primaryActions : list IAction;
  secondaryActions : list IAction
}.

Record Dimension := { width : Z; height : Z }.

(** A rendered [ToolBar] as the container sees it: for each item its action
    ([getItemAction]) and its measured width ([getItemWidth]). *)
Definition ToolBar := list (IAction * Z)%type.

(** The fields of [NotebookEditorToolbar] that take part in the layout.
    The strategies read [_primaryActions] and [_secondaryActions] through
    the getters [primaryActions] and [secondaryActions]. *)
Record NotebookEditorToolbar := {
  _primaryActions : list IActionModel;
  _secondaryActions : list IAction;
  _notebookLeftToolbar : option ToolBar;
  _notebookRightToolbar : option ToolBar;
  _strategy : Strategy;
  _dimension : option Dimension
}.

(** The store after the strategy assigned fields of its objects. *)
Definition with_primaryActions (store : list IActionModel)
    (tb : NotebookEditorToolbar) : NotebookEditorToolbar :=
  {| _primaryActions := store;
     _secondaryActions := _secondaryActions tb;
     _notebookLeftToolbar := _notebookLeftToolbar tb;
     _notebookRightToolbar := _notebookRightToolbar tb;
     _strategy := _strategy tb;
     _dimension := _dimension tb |}.

(** ** Assignments to the fields of a shared [IActionModel] *)

Definition set_visible (b : bool) (m : IActionModel) : IActionModel :=
  {| action := action m; size := size m; visible := b;
     renderLabel := renderLabel m |}.

Definition set_renderLabel (b : bool) (m : IActionModel) : IActionModel :=
  {| action := action m; size := size m; visible := visible m;
     renderLabel := b |}.

(** ** Arrays of references into the store *)

(** [arr.slice(start, end)] for non-negative arguments. *)
Definition slice {A} (start end_ : nat) (arr : list A) : list A :=
  drop start (take end_ arr).

(** The array [primaryActions] itself, as references to its objects. *)
Definition refs (store : list IActionModel) : list nat :=
  seq 0 (length store).

(** [arr.forEach(m => ...)] with a body that assigns fields of [m].  The
    arrays the source iterates are slices of [primaryActions], so every
    reference in them is valid. *)
Definition forEach (body : IActionModel → IActionModel) (arr : list nat)
    (store : list IActionModel) : list IActionModel :=
  foldl (λ s r, alter body r s) store arr.

(** Reading the objects an array refers to. *)
Definition derefs (store : list IActionModel) (arr : list nat)
    : option (list IActionModel) :=
  mapM (λ r, store !! r) arr.

(** ** The layout strategies *)

Section Strategies.

(** Two identifiers are imported by the source from modules that are not
    part of it: [ToggleMenuAction.ID] (base toolbar) and [SELECT_KERNEL_ID]
    (notebook core actions).  Everything below holds for every value. *)
Variable ToggleMenuAction_ID : string.
Variable SELECT_KERNEL_ID : string.

(** The literal the full-degrade path compares action ids with. *)
Definition insertMarkdownCellBelow : string :=
  "notebook.cell.insertMarkdownCellBelow".

(** [lastItemInLeft.action.id === ToggleMenuAction.ID], where
    [lastItemInLeft = primaryActions[primaryActions.length - 1]] is
    [undefined] on the empty array, so that reading [.action] throws. *)
Definition hasToggleMoreAction (store : list IActionModel) : option bool :=
  lastItemInLeft ← last store;
  Some (bool_decide (id (action lastItemInLeft) = ToggleMenuAction_ID)).

(** The filter of every [primaryActions:] output. *)
Definition shown (m : IActionModel) : Prop :=
  visible m = true ∧ id (action m) ≠ ToggleMenuAction_ID.

(** The filter of every overflow contribution to [secondaryActions:]. *)
Definition hidden (m : IActionModel) : Prop :=
  visible m = false ∧ id (action m) ≠ ToggleMenuAction_ID.

#[global] Instance shown_dec m : Decision (shown m).
Proof. unfold shown. apply _. Defined.

#[global] Instance hidden_dec m : Decision (hidden m).
Proof. unfold hidden. apply _. Defined.

(** *** FixedLabelStrategy._calculateFixedActions *)

(** The [for] loop: [ixs] are the values [i] still to visit, [size] and
    [actions] the two locals.  [break] returns what was pushed so far. *)
Fixpoint fixedLoop (store : list IActionModel) (maxWidth : Z)
    (ixs : list nat) (size_ : Z) (actions : list nat) : option (list nat) :=
  match ixs with
  | [] => Some actions
  | i :: ixs' =>
      actionModel ← store !! i;
      let itemSize := size actionModel in
      if bool_decide (size_ + itemSize ≤ maxWidth)
      then fixedLoop store maxWidth ixs'
             (size_ + (ACTION_PADDING + itemSize)) (actions ++ [i])
      else Some actions
  end.

Definition _calculateFixedActions (leftToolbarContainerMaxWidth : Z)
    (tb : NotebookEditorToolbar) : option (Partition * NotebookEditorToolbar) :=
  let store := _primaryActions tb in
  let primary := refs store in
  hasToggle ← hasToggleMoreAction store;
  actions ← fixedLoop store leftToolbarContainerMaxWidth
              (seq 0 (length primary
                      - (if hasToggle : bool then 1 else 0))%nat) 0 [];
  let store := forEach (set_visible true) actions store in
  let store := forEach (set_visible false)
                 (drop (length actions) primary) store in
  shownActions ← derefs store actions;
  overflow ← derefs store (drop (length actions) primary);
  Some ({| primaryActions := action <$> filter shown shownActions;
           secondaryActions :=
             (action <$> filter hidden overflow) ++ _secondaryActions tb |},
        with_primaryActions store tb).

(** *** DynamicLabelStrategy *)

(** The loop of [_calcuateWithAlllabelsHidden]; [actions[i]] is read
    through the array [actions] and then through the store. *)
Fixpoint hiddenLoop (store : list IActionModel) (maxWidth : Z)
    (actions : list nat) (ixs : list nat) (size_ : Z)
    (renderActions : list nat) : option (list nat * Z) :=
  match ixs with
  | [] => Some (renderActions, size_)
  | i :: ixs' =>
      r ← actions !! i;
      actionModel ← store !! r;
      if bool_decide (id (action actionModel) = insertMarkdownCellBelow)
      then hiddenLoop store maxWidth actions ixs' size_ (renderActions ++ [r])
      else
        let itemSize := ICON_ONLY_ACTION_WIDTH in
        if bool_decide (size_ + itemSize ≤ maxWidth)
        then hiddenLoop store maxWidth actions ixs'
               (size_ + (ACTION_PADDING + itemSize)) (renderActions ++ [r])
        else Some (renderActions, size_)
  end.

(** The body of [renderActions.forEach] in the full-degrade path. *)
Definition set_visible_unless_markdown (m : IActionModel) : IActionModel :=
  if bool_decide (id (action m) = insertMarkdownCellBelow)
  then set_visible false m
  else set_visible true m.

Definition _calcuateWithAlllabelsHidden (actions : list nat)
    (leftToolbarContainerMaxWidth : Z) (tb : NotebookEditorToolbar)
    : option (Partition * NotebookEditorToolbar) :=
  let store := _primaryActions tb in
  let primary := refs store in
  let store := forEach (set_renderLabel false) primary store in
  '(renderActions, _) ←
     hiddenLoop store leftToolbarContainerMaxWidth actions
       (seq 0 (length actions)) 0 [];
  let store := forEach set_visible_unless_markdown renderActions store in
  let store := forEach (set_visible false)
                 (drop (length renderActions) primary) store in
  shownActions ← derefs store renderActions;
  overflow ← derefs store (drop (length actions) primary);
  Some ({| primaryActions := action <$> filter shown shownActions;
           secondaryActions :=
             (action <$> filter hidden overflow) ++ _secondaryActions tb |},
        with_primaryActions store tb).

(** [actions.map(a => a.size).reduce((a, b) => a + b, 0)
      + (actions.length - 1) * ACTION_PADDING] *)
Definition totalWidthWithLabels (store : list IActionModel)
    (actions : list nat) : option Z :=
  models ← derefs store actions;
  Some (foldl Z.add 0 (size <$> models)
        + (Z.of_nat (length actions) - 1) * ACTION_PADDING).

(** [n * ICON_ONLY_ACTION_WIDTH + (n - 1) * ACTION_PADDING] *)
Definition iconOnlyWidth (n : nat) : Z :=
  Z.of_nat n * ICON_ONLY_ACTION_WIDTH + (Z.of_nat n - 1) * ACTION_PADDING.

(** The separator search; [sum] and [lastActionWithLabel] are the
    locals ([sums] is written but never read, and is left out). *)
Fixpoint separatorLoop (store : list IActionModel) (maxWidth : Z)
    (actions : list nat) (ixs : list nat) (sum : Z)
    (lastActionWithLabel : Z) : option Z :=
  match ixs with
  | [] => Some lastActionWithLabel
  | i :: ixs' =>
      r ← actions !! i;
      actionModel ← store !! r;
      let sum := sum + (size actionModel + ACTION_PADDING) in
      if bool_decide (class (action actionModel) = Separator)
      then
        let remainingItems := drop (i + 1)%nat actions in
        let newTotalSum :=
          sum + (if bool_decide (length remainingItems = 0%nat) then 0
                 else iconOnlyWidth (length remainingItems)) in
        separatorLoop store maxWidth actions ixs' sum
          (if bool_decide (newTotalSum ≤ maxWidth) then Z.of_nat i
           else lastActionWithLabel)
      else separatorLoop store maxWidth actions ixs' sum lastActionWithLabel
  end.

Definition calculateActions_dynamic (leftToolbarContainerMaxWidth : Z)
    (tb : NotebookEditorToolbar) : option (Partition * NotebookEditorToolbar) :=
  let store := _primaryActions tb in
  let primary := refs store in
  let secondary := _secondaryActions tb in
  hasToggle ← hasToggleMoreAction store;
  let actions :=
    slice 0 (length primary - (if hasToggle : bool then 1 else 0))%nat
      primary in
  if bool_decide (length actions = 0%nat) then
    all ← derefs store primary;
    Some ({| primaryActions := action <$> filter shown all;
             secondaryActions := secondary |}, tb)
  else
    total ← totalWidthWithLabels store actions;
    if bool_decide (total ≤ leftToolbarContainerMaxWidth) then
      let store :=
        forEach (λ m, set_renderLabel true (set_visible true m))
          primary store in
      all ← derefs store primary;
      Some ({| primaryActions := action <$> filter shown all;
               secondaryActions := secondary |},
            with_primaryActions store tb)
    else if bool_decide (iconOnlyWidth (length actions)
                         > leftToolbarContainerMaxWidth) then
      _calcuateWithAlllabelsHidden actions leftToolbarContainerMaxWidth tb
    else
      lastActionWithLabel ←
        separatorLoop store leftToolbarContainerMaxWidth actions
          (seq 0 (length actions)) 0 (-1);
      if bool_decide (lastActionWithLabel < 0) then
        _calcuateWithAlllabelsHidden actions leftToolbarContainerMaxWidth tb
      else
        let visibleActions :=
          slice 0 (Z.to_nat (lastActionWithLabel + 1)) actions in
        let store :=
          forEach (λ m, set_renderLabel true (set_visible true m))
            visibleActions store in
        let store :=
          forEach (λ m, set_renderLabel false (set_visible true m))
            (drop (length visibleActions) primary) store in
        all ← derefs store primary;
        Some ({| primaryActions := action <$> filter shown all;
                 secondaryActions := secondary |},
              with_primaryActions store tb).

(** *** The interface [IActionLayoutStrategy] *)

Definition calculateActions (s : Strategy) (leftToolbarContainerMaxWidth : Z)
    (tb : NotebookEditorToolbar) : option (Partition * NotebookEditorToolbar) :=
  match s with
  | FixedLabelStrategy | FixedLabellessStrategy =>
      _calculateFixedActions leftToolbarContainerMaxWidth tb
  | DynamicLabelStrategy =>
      calculateActions_dynamic leftToolbarContainerMaxWidth tb
  end.

(** [primaryActions.find(a => a.action.id === action.id)] followed by
    [a && a.renderLabel]. *)
Definition rendersLabel (tb : NotebookEditorToolbar) (a : IAction) : bool :=
  match list_find (λ m, id (action m) = id a) (_primaryActions tb) with
  | Some (_, m) => renderLabel m
  | None => false
  end.

Definition menuItemView (v : ViewItem) (a : IAction) : ViewItem :=
  if bool_decide (class a = MenuItemAction) then v else undefined.

Definition actionProvider (s : Strategy) (tb : NotebookEditorToolbar)
    (a : IAction) : ViewItem :=
  match s with
  | FixedLabelStrategy | DynamicLabelStrategy =>
      if bool_decide (id a = SELECT_KERNEL_ID)
      then NotebookKernelActionViewItem
      else if rendersLabel tb a
           then menuItemView ActionViewWithLabel a
           else menuItemView MenuEntryActionViewItem a
  | FixedLabellessStrategy =>
      if bool_decide (id a = SELECT_KERNEL_ID)
      then NotebookKernelActionViewItem
      else menuItemView MenuEntryActionViewItem a
  end.

(** *** The container: [NotebookEditorToolbar._computeSizes] *)

Definition _cacheItemSizes (toolbar : ToolBar) (tb : NotebookEditorToolbar)
    : NotebookEditorToolbar :=
  with_primaryActions
    ((λ item, {| action := item.1; size := item.2;
                 visible := true; renderLabel := true |}) <$> toolbar) tb.

Definition _canBeVisible (width_ : Z) (tb : NotebookEditorToolbar) : bool :=
  bool_decide
    (foldl (λ w m, w + (size m + 8)) 0 (_primaryActions tb) ≤ width_).

(** [rightToolbar.getItemsLength() ? rightToolbar.getItemWidth(0) : 0] *)
Definition firstItemWidth (toolbar : ToolBar) : Z :=
  match toolbar with
  | [] => 0
  | item :: _ => item.2
  end.

(** The result is the call [toolbar.setActions(primary, secondary)] the
    method makes, if it makes one; how the host bar renders it is not part
    of this source. *)
Definition _computeSizes (tb : NotebookEditorToolbar)
    : option (option Partition * NotebookEditorToolbar) :=
  match _notebookLeftToolbar tb, _notebookRightToolbar tb, _dimension tb with
  | Some toolbar, Some rightToolbar, Some dimension =>
      if bool_decide (height dimension >= 0 ∧ width dimension >= 0) then
        let tb :=
          if bool_decide (length (_primaryActions tb) = 0%nat
                          ∧ length toolbar ≠ length (_primaryActions tb))
          then _cacheItemSizes toolbar tb else tb in
        if bool_decide (length (_primaryActions tb) = 0%nat)
        then Some (None, tb)
        else
          let kernelWidth := firstItemWidth rightToolbar + ACTION_PADDING in
          if _canBeVisible (width dimension - kernelWidth - ACTION_PADDING) tb
          then
            let store :=
              forEach (λ m, set_renderLabel true (set_visible true m))
                (refs (_primaryActions tb)) (_primaryActions tb) in
            all ← derefs store (refs store);
            Some (Some {| primaryActions :=
                            action <$> filter (λ m, id (action m)
                                                    ≠ ToggleMenuAction_ID) all;
                          secondaryActions := _secondaryActions tb |},
                  with_primaryActions store tb)
          else
            let leftToolbarContainerMaxWidth :=
              width dimension - kernelWidth
              - (TOGGLE_MORE_ACTION_WIDTH + ACTION_PADDING) - ACTION_PADDING in
            '(calculatedActions, tb) ←
               calculateActions (_strategy tb) leftToolbarContainerMaxWidth tb;
            Some (Some calculatedActions, tb)
      else Some (None, tb)
  | _, _, _ => Some (None, tb)
  end.

(** [layout(dimension)]; the [display] style it sets is not modelled. *)
Definition layout (dimension : Dimension) (tb : NotebookEditorToolbar)
    : option (option Partition * NotebookEditorToolbar) :=
  _computeSizes
    {| _primaryActions := _primaryActions tb;
       _secondaryActions := _secondaryActions tb;
       _notebookLeftToolbar := _notebookLeftToolbar tb;
       _notebookRightToolbar := _notebookRightToolbar tb;
       _strategy := _strategy tb;
       _dimension := Some dimension |}.

End Strategies.


(** ** The layouts as functions of the list of models

    The strategies above work on references into the shared store.  The
    definitions of this part describe the same results on the list of
    models itself; the lemmas [_calculateFixedActions_eq],
    [_calcuateWithAlllabelsHidden_eq] and [calculateActions_dynamic_eq]
    below prove that the strategies compute exactly these. *)

(** How many leading models the loop of [_calculateFixedActions] keeps. *)
Fixpoint fitCount (maxWidth size_ : Z) (models : list IActionModel) : nat :=
  match models with
  | [] => 0
  | m :: models' =>
      if bool_decide (size_ + size m ≤ maxWidth)
      then S (fitCount maxWidth (size_ + (ACTION_PADDING + size m)) models')
      else 0
  end.

(** How many leading models the loop of [_calcuateWithAlllabelsHidden]
    keeps, and the value of its local [size] when it ends. *)
Fixpoint hiddenCount (maxWidth size_ : Z) (models : list IActionModel) : nat :=
  match models with
  | [] => 0
  | m :: models' =>
      if bool_decide (id (action m) = insertMarkdownCellBelow)
      then S (hiddenCount maxWidth size_ models')
      else if bool_decide (size_ + ICON_ONLY_ACTION_WIDTH ≤ maxWidth)
      then S (hiddenCount maxWidth
                (size_ + (ACTION_PADDING + ICON_ONLY_ACTION_WIDTH)) models')
      else 0
  end.

Fixpoint hiddenSize (maxWidth size_ : Z) (models : list IActionModel) : Z :=
  match models with
  | [] => size_
  | m :: models' =>
      if bool_decide (id (action m) = insertMarkdownCellBelow)
      then hiddenSize maxWidth size_ models'
      else if bool_decide (size_ + ICON_ONLY_ACTION_WIDTH ≤ maxWidth)
      then hiddenSize maxWidth
             (size_ + (ACTION_PADDING + ICON_ONLY_ACTION_WIDTH)) models'
      else size_
  end.

(** The value of [lastActionWithLabel] after the separator search over
    [models], which start at index [i] of the [n] entries of [actions]. *)
Fixpoint separatorScan (maxWidth : Z) (n i : nat) (models : list IActionModel)
    (sum lastActionWithLabel : Z) : Z :=
  match models with
  | [] => lastActionWithLabel
  | m :: models' =>
      let sum := sum + (size m + ACTION_PADDING) in
      if bool_decide (class (action m) = Separator)
      then
        let remaining := (n - (i + 1))%nat in
        let newTotalSum :=
          sum + (if bool_decide (remaining = 0%nat) then 0
                 else iconOnlyWidth remaining) in
        separatorScan maxWidth n (S i) models' sum
          (if bool_decide (newTotalSum ≤ maxWidth) then Z.of_nat i
           else lastActionWithLabel)
      else separatorScan maxWidth n (S i) models' sum lastActionWithLabel
  end.

Section Layouts.

Variable ToggleMenuAction_ID : string.

Definition notToggle (a : IAction) : Prop := id a ≠ ToggleMenuAction_ID.

Definition notMarkdownNorToggle (a : IAction) : Prop :=
  id a ≠ insertMarkdownCellBelow ∧ id a ≠ ToggleMenuAction_ID.

#[global] Instance notToggle_dec a : Decision (notToggle a).
Proof. unfold notToggle. apply _. Defined.

#[global] Instance notMarkdownNorToggle_dec a :
  Decision (notMarkdownNorToggle a).
Proof. unfold notMarkdownNorToggle. apply _. Defined.

(** The number of entries of [actions]: the store without a trailing
    toggle-more sentinel. *)
Definition actionCount (store : list IActionModel) : nat :=
  match last store with
  | Some m =>
      (length store
       - (if bool_decide (id (action m) = ToggleMenuAction_ID)
          then 1 else 0))%nat
  | None => 0%nat
  end.

Definition fixedLayout (maxWidth : Z) (tb : NotebookEditorToolbar)
    : Partition * NotebookEditorToolbar :=
  let store := _primaryActions tb in
  let k := fitCount maxWidth 0 (take (actionCount store) store) in
  ({| primaryActions := filter notToggle (action <$> take k store);
      secondaryActions :=
        filter notToggle (action <$> drop k store) ++ _secondaryActions tb |},
   with_primaryActions
     ((set_visible true <$> take k store)
      ++ (set_visible false <$> drop k store)) tb).

(** The models [actions] refers to. *)
Definition withoutSentinel (store : list IActionModel) : list IActionModel :=
  take (actionCount store) store.

(** [totalWidthWithLabels] of a list of models. *)
Definition labeledWidth (models : list IActionModel) : Z :=
  foldl Z.add 0 (size <$> models)
  + (Z.of_nat (length models) - 1) * ACTION_PADDING.

Definition hiddenLayout (n : nat) (maxWidth : Z) (tb : NotebookEditorToolbar)
    : Partition * NotebookEditorToolbar :=
  let store := _primaryActions tb in
  let unlabeled := set_renderLabel false <$> store in
  let j := hiddenCount maxWidth 0 (take n store) in
  ({| primaryActions := filter notMarkdownNorToggle (action <$> take j store);
      secondaryActions :=
        filter notToggle (action <$> drop n store) ++ _secondaryActions tb |},
   with_primaryActions
     ((set_visible_unless_markdown <$> take j unlabeled)
      ++ (set_visible false <$> drop j unlabeled)) tb).

Definition labeled (b : bool) (m : IActionModel) : IActionModel :=
  set_renderLabel b (set_visible true m).

Definition dynamicLayout (maxWidth : Z) (tb : NotebookEditorToolbar)
    : Partition * NotebookEditorToolbar :=
  let store := _primaryActions tb in
  let n := actionCount store in
  let all := {| primaryActions := filter notToggle (action <$> store);
                secondaryActions := _secondaryActions tb |} in
  if bool_decide (n = 0%nat) then
    ({| primaryActions := action <$> filter (shown ToggleMenuAction_ID) store;
        secondaryActions := _secondaryActions tb |}, tb)
  else if bool_decide (labeledWidth (withoutSentinel store) ≤ maxWidth) then
    (all, with_primaryActions (labeled true <$> store) tb)
  else if bool_decide (iconOnlyWidth n > maxWidth) then
    hiddenLayout n maxWidth tb
  else
    let lastActionWithLabel :=
      separatorScan maxWidth n 0 (take n store) 0 (-1) in
    if bool_decide (lastActionWithLabel < 0) then hiddenLayout n maxWidth tb
    else
      let v := (Z.to_nat (lastActionWithLabel + 1) `min` n)%nat in
      (all, with_primaryActions
              ((labeled true <$> take v store)
               ++ (labeled false <$> drop v store)) tb).

End Layouts.

(** The layout a strategy computes. *)
Definition strategyLayout (ToggleMenuAction_ID : string) (s : Strategy)
    (maxWidth : Z) (tb : NotebookEditorToolbar)
    : Partition * NotebookEditorToolbar :=
  match s with
  | FixedLabelStrategy | FixedLabellessStrategy =>
      fixedLayout ToggleMenuAction_ID maxWidth tb
  | DynamicLabelStrategy => dynamicLayout ToggleMenuAction_ID maxWidth tb
  end.

(** Two models of the same entity: they differ at most in the two flags
    a layout pass assigns. *)
Definition sameEntity (m1 m2 : IActionModel) : Prop :=
  action m1 = action m2 ∧ size m1 = size m2.

(** ** Concrete toolbars

    The ids below only serve the examples; the theorems hold for every
    value of the two imported identifiers. *)

Definition toggleMore : string := "toolbar.toggle.more".
Definition selectKernel : string := "_notebook.selectKernel".

(** A model as [_cacheItemSizes] builds it. *)
Definition model (i : string) (c : ActionClass) (s : Z) : IActionModel :=
  {| action := {| id := i; class := c |}; size := s;
     visible := true; renderLabel := true |}.

Definition toolbarOf (primary : list IActionModel) (secondary : list IAction)
    : NotebookEditorToolbar :=
  {| _primaryActions := primary;
     _secondaryActions := secondary;
     _notebookLeftToolbar := None;
     _notebookRightToolbar := None;
     _strategy := DynamicLabelStrategy;
     _dimension := None |}.

(** Five actions of labeled widths 40, 50, 30, 60, 45 with a separator at
    index 2. *)
Definition fiveActions : list IActionModel :=
  [ model "notebook.cell.insertCodeCellBelow" MenuItemAction 40;
    model "notebook.cell.insertMarkdownCellAbove" MenuItemAction 50;
    model "vs.actions.separator" Separator 30;
    model "notebook.execute" MenuItemAction 60;
    model "notebook.clearAllCellsOutputs" MenuItemAction 45 ].

Definition toggleMoreModel : IActionModel :=
  model toggleMore ToggleMenuAction 21.

Definition configureAction : IAction :=
  {| id := "notebook.configure"; class := MenuItemAction |}.

(** ** NotebookStatusBarService

    A provider call ends by resolving to a list, resolving to [undefined],
    or throwing (a rejected promise is the same to the [await] inside the
    [try]).  The calls to the providers are made in the order of the
    array; the order in which the errors of different providers reach
    [onUnexpectedExternalError] depends on when their promises settle and
    is recorded here in the order of the providers. *)

(** The fields of [INotebookStatusBarItem] that the toolbar reads. *)
Record INotebookStatusBarItem := {
  text : string;
  tooltip : option string;
  command : option string
}.

Definition URI := string.
Definition Error := string.

Record CancellationToken := { isCancellationRequested : bool }.

(** [{ items: INotebookStatusBarItem[]; dispose?(): void }] *)
Record INotebookStatusBarItemList := {
  items : list INotebookStatusBarItem;
  dispose : bool
}.

(** How a call, or the promise it returned, ends. *)
Inductive Completion (A : Type) :=
  | Returns (a : A)
  | Throws (e : Error).
#[global] Arguments Returns {A} a.
#[global] Arguments Throws {A} e.

(** [provideStatusBarItems] resolves to a list or to [undefined], or it
    throws or rejects. *)
Record INotebookStatusBarItemProvider := {
  viewType : string;
  provideStatusBarItems :
    URI → CancellationToken → Completion (option INotebookStatusBarItemList)
}.

Record NotebookStatusBarService := {
  _providers : list INotebookStatusBarItemProvider
}.

(** What the service does to the outside: the calls it makes to providers
    and the errors it hands to [onUnexpectedExternalError]. *)
Record Effects := {
  invoked : list (INotebookStatusBarItemProvider * URI * CancellationToken);
  unexpected : list Error
}.

Definition Eff (A : Type) : Type := Effects → A * Effects.

Definition ret {A} (a : A) : Eff A := λ σ, (a, σ).

Definition bind {A B} (m : Eff A) (k : A → Eff B) : Eff B :=
  λ σ, let '(a, σ') := m σ in k a σ'.

Notation "x ←ₑ m ; k" := (bind m (λ x, k))
  (at level 20, m at level 100, k at level 200, only parsing).

Fixpoint mapEff {A B} (f : A → Eff B) (l : list A) : Eff (list B) :=
  match l with
  | [] => ret []
  | x :: l' => y ←ₑ f x; ys ←ₑ mapEff f l'; ret (y :: ys)
  end.

Definition call (p : INotebookStatusBarItemProvider) (docUri : URI)
    (token : CancellationToken)
    : Eff (Completion (option INotebookStatusBarItemList)) :=
  λ σ, (provideStatusBarItems p docUri token,
        {| invoked := invoked σ ++ [(p, docUri, token)];
           unexpected := unexpected σ |}).

Definition onUnexpectedExternalError (e : Error) : Eff unit :=
  λ σ, (tt, {| invoked := invoked σ; unexpected := unexpected σ ++ [e] |}).

(** [Promise.all]: the values in the order of the promises, or the first
    rejection. *)
Fixpoint Promise_all {A} (promises : list (Completion A))
    : Completion (list A) :=
  match promises with
  | [] => Returns []
  | Returns a :: rest =>
      match Promise_all rest with
      | Returns l => Returns (a :: l)
      | Throws e => Throws e
      end
  | Throws e :: _ => Throws e
  end.

(** [{ items: [] }] *)
Definition noItems : INotebookStatusBarItemList :=
  {| items := []; dispose := false |}.

(** The [async p => { try { ... } catch (e) { ... } }] of the source. *)
Definition itemsOf (docUri : URI) (token : CancellationToken)
    (p : INotebookStatusBarItemProvider)
    : Eff (Completion INotebookStatusBarItemList) :=
  r ←ₑ call p docUri token;
  match r with
  | Returns v => ret (Returns (default noItems v))
  | Throws e => _ ←ₑ onUnexpectedExternalError e; ret (Returns noItems)
  end.

Definition consulted (viewType_ : string)
    (p : INotebookStatusBarItemProvider) : Prop :=
  viewType p = viewType_ ∨ viewType p = "*".

#[global] Instance consulted_dec v p : Decision (consulted v p).
Proof. unfold consulted. apply _. Defined.

Definition getStatusBarItemsForDocument (svc : NotebookStatusBarService)
    (docUri : URI) (viewType_ : string) (token : CancellationToken)
    : Eff (Completion (list INotebookStatusBarItemList)) :=
  let providers := filter (consulted viewType_) (_providers svc) in
  promises ←ₑ mapEff (itemsOf docUri token) providers;
  ret (Promise_all promises).

(** [registerStatusBarItemProvider]: the provider is pushed; the events
    the method fires and the disposable it returns are left out. *)
Definition registerStatusBarItemProvider
    (provider : INotebookStatusBarItemProvider)
    (svc : NotebookStatusBarService) : NotebookStatusBarService :=
  {| _providers := _providers svc ++ [provider] |}.

(** The entry a provider contributes. *)
Definition slotOf (docUri : URI) (token : CancellationToken)
    (p : INotebookStatusBarItemProvider) : INotebookStatusBarItemList :=
  match provideStatusBarItems p docUri token with
  | Returns (Some l) => l
  | Returns None | Throws _ => noItems
  end.

Definition errorsOf (docUri : URI) (token : CancellationToken)
    (p : INotebookStatusBarItemProvider) : list Error :=
  match provideStatusBarItems p docUri token with
  | Returns _ => []
  | Throws e => [e]
  end.


(** Three providers for the examples. *)
Definition kernelStatus : INotebookStatusBarItemList :=
  {| items := [ {| text := "Python 3"; tooltip := None; command := None |} ];
     dispose := false |}.

Definition jupyterProvider : INotebookStatusBarItemProvider :=
  {| viewType := "jupyter-notebook";
     provideStatusBarItems := λ _ _, Returns (Some kernelStatus) |}.

Definition failingProvider : INotebookStatusBarItemProvider :=
  {| viewType := "*";
     provideStatusBarItems := λ _ _, Throws "provider failed" |}.

Definition otherProvider : INotebookStatusBarItemProvider :=
  {| viewType := "interactive";
     provideStatusBarItems := λ _ _, Returns None |}.

Definition threeProviders : NotebookStatusBarService :=
  {| _providers := [jupyterProvider; failingProvider; otherProvider] |}.

Definition noEffects : Effects := {| invoked := []; unexpected := [] |}.

Definition notCancelled : CancellationToken :=
  {| isCancellationRequested := false |}.

(** ** More of the container and of the status bar *)

(** *** Widths the strategies compare *)

(** [sum] of the separator search after the models: each size with the
    padding behind it. *)
Definition paddedWidth (models : list IActionModel) : Z :=
  foldl (λ w m, w + (size m + ACTION_PADDING)) 0 models.

(** What the separator search charges for [k] actions without labels. *)
Definition iconsWidth (k : nat) : Z :=
  if bool_decide (k = 0%nat) then 0 else iconOnlyWidth k.

(** [enum RenderLabel] and [type RenderLabelWithFallback]. *)
Inductive RenderLabel := Always | Never | Dynamic.

#[global] Instance RenderLabel_eq_dec : EqDecision RenderLabel.
Proof. solve_decision. Defined.

Inductive RenderLabelWithFallback :=
  | setting_true
  | setting_false
  | setting_always
  | setting_never
  | setting_dynamic.

Definition _convertConfiguration (value : RenderLabelWithFallback)
    : RenderLabel :=
  match value with
  | setting_true => Always
  | setting_false => Never
  | setting_always => Always
  | setting_never => Never
  | setting_dynamic => Dynamic
  end.

(** [_updateStrategy], for the value [_renderLabel] has. *)
Definition _updateStrategy (_renderLabel : RenderLabel)
    (tb : NotebookEditorToolbar) : NotebookEditorToolbar :=
  {| _primaryActions := _primaryActions tb;
     _secondaryActions := _secondaryActions tb;
     _notebookLeftToolbar := _notebookLeftToolbar tb;
     _notebookRightToolbar := _notebookRightToolbar tb;
     _strategy :=
       match _renderLabel with
       | Always => FixedLabelStrategy
       | Never => FixedLabellessStrategy
       | Dynamic => DynamicLabelStrategy
       end;
     _dimension := _dimension tb |}.

(** The closure [actionProvider] of [_registerNotebookActionsToolbar]: the
    view factory of the right toolbar, and of the left toolbar once it is
    rebuilt after a change of the setting. *)
Definition toolbarActionProvider (SELECT_KERNEL_ID : string)
    (_renderLabel : RenderLabel) (tb : NotebookEditorToolbar) (a : IAction)
    : ViewItem :=
  if bool_decide (id a = SELECT_KERNEL_ID)
  then NotebookKernelActionViewItem
  else if bool_decide (_renderLabel ≠ Never)
  then if rendersLabel tb a
       then menuItemView ActionViewWithLabel a
       else menuItemView MenuEntryActionViewItem a
  else menuItemView MenuEntryActionViewItem a.

(** *** Unregistering a provider *)

(** [arr.findIndex(f)] *)
Definition findIndex {A} (f : A → bool) (arr : list A) : Z :=
  match list_find (λ x, f x = true) arr with
  | Some (i, _) => Z.of_nat i
  | None => -1
  end.

(** What [arr.splice(start, 1)] leaves of the array: a negative [start]
    counts from the end, and both ends are clamped. *)
Definition splice1 {A} (start : Z) (arr : list A) : list A :=
  let len := Z.of_nat (length arr) in
  let from :=
    Z.to_nat (if bool_decide (start < 0) then Z.max (len + start) 0
              else Z.min start len) in
  take from arr ++ drop (from + 1) arr.

(** The function [registerStatusBarItemProvider] wraps in the disposable it
    returns; [isProvider] is the test [p => p === provider] on the
    registered objects.  The change listener it disposes first is left
    out. *)
Definition unregisterStatusBarItemProvider
    (isProvider : INotebookStatusBarItemProvider → bool)
    (svc : NotebookStatusBarService) : NotebookStatusBarService :=
  let idx := findIndex isProvider (_providers svc) in
  {| _providers := splice1 idx (_providers svc) |}.

(** *** ContributedStatusBarItemController *)

(** What the controller reads and writes of the view model. *)
Record NotebookViewModel := {
  notebookDocument_uri : URI;
  notebookDocument_viewType : string;
  statusBarItems : list INotebookStatusBarItem
}.

Record ContributedStatusBarItemController := {
  _viewModel : option NotebookViewModel;
  _currentItemLists : list INotebookStatusBarItemList
}.

(** [lists.forEach(itemList => itemList.dispose && itemList.dispose())]:
    the lists whose [dispose] is called. *)
Definition disposeEach (lists : list INotebookStatusBarItemList)
    : list INotebookStatusBarItemList :=
  filter (λ l, dispose l = true) lists.

(** The controller after [_update], and the lists it disposed. *)
Record Updated := {
  controller : ContributedStatusBarItemController;
  disposed : list INotebookStatusBarItemList
}.

(** [_update]; [cancelled] is what [tokenSource.token.isCancellationRequested]
    reads when the [await] resumes. *)
Definition _update (svc : NotebookStatusBarService) (cancelled : bool)
    (c : ContributedStatusBarItemController) : Eff (Completion Updated) :=
  match _viewModel c with
  | None => ret (Returns {| controller := c; disposed := [] |})
  | Some vm =>
      r ←ₑ getStatusBarItemsForDocument svc (notebookDocument_uri vm)
             (notebookDocument_viewType vm)
             {| isCancellationRequested := false |};
      match r with
      | Throws e => ret (Throws e)
      | Returns statusItemLists =>
          if cancelled
          then ret (Returns {| controller := c;
                               disposed := disposeEach statusItemLists |})
          else
            let items_ := concat (items <$> statusItemLists) in
            ret (Returns
                   {| controller :=
                        {| _viewModel :=
                             Some {| notebookDocument_uri :=
                                       notebookDocument_uri vm;
                                     notebookDocument_viewType :=
                                       notebookDocument_viewType vm;
                                     statusBarItems := items_ |};
                           _currentItemLists := statusItemLists |};
                      disposed := disposeEach (_currentItemLists c) |})
      end
  end.

(** *** Concrete states for the examples *)

(** A toolbar that is laid out: five rendered items, a kernel picker of
    width 100 on the right, and the given available width. *)
Definition renderedToolbar (primary : list IActionModel) (s : Strategy)
    (availableWidth : Z) : NotebookEditorToolbar :=
  {| _primaryActions := primary;
     _secondaryActions := [configureAction];
     _notebookLeftToolbar :=
       Some ((λ m, (action m, size m)) <$> fiveActions);
     _notebookRightToolbar :=
       Some [({| id := selectKernel; class := MenuItemAction |}, 100)];
     _strategy := s;
     _dimension := Some {| width := availableWidth; height := 22 |} |}.

Definition disposableStatus : INotebookStatusBarItemList :=
  {| items := [ {| text := "Cell 3 of 7"; tooltip := None; command := None |} ];
     dispose := true |}.

Definition cellProvider : INotebookStatusBarItemProvider :=
  {| viewType := "jupyter-notebook";
     provideStatusBarItems := λ _ _, Returns (Some disposableStatus) |}.

Definition jupyterViewModel : NotebookViewModel :=
  {| notebookDocument_uri := "file:///a.ipynb";
     notebookDocument_viewType := "jupyter-notebook";
     statusBarItems := [] |}.

Definition freshController : ContributedStatusBarItemController :=
  {| _viewModel := Some jupyterViewModel;
     _currentItemLists := [disposableStatus] |}.

(** * Properties *)

(** ** Arrays of references *)

Lemma forEach_cons body r arr store :
  forEach body (r :: arr) store = forEach body arr (alter body r store).
Proof. reflexivity. Qed.

Lemma length_forEach body arr store :
  length (forEach body arr store) = length store.
Proof.
  revert store. induction arr as [|r arr IH]; intros store; [done|].
  rewrite forEach_cons, IH. apply length_alter.
Qed.

Lemma forEach_lookup body arr store (i : nat) :
  NoDup arr →
  forEach body arr store !! i
  = if decide (i ∈ arr) then body <$> store !! i else store !! i.
Proof.
  intros Hnd. revert store.
  induction Hnd as [|r arr Hr Hnd IH]; intros store.
  - by rewrite decide_False by apply not_elem_of_nil.
  - rewrite forEach_cons, IH.
    destruct (decide (i = r)) as [->|Hne].
    + rewrite decide_False by done.
      rewrite decide_True by apply list_elem_of_here.
      apply list_lookup_alter_eq.
    + rewrite list_lookup_alter_ne by done.
      destruct (decide (i ∈ arr)).
      * by rewrite decide_True by (by apply list_elem_of_further).
      * by rewrite decide_False by (rewrite elem_of_cons; tauto).
Qed.

Lemma forEach_seq body (a k : nat) store :
  forEach body (seq a k) store
  = take a store ++ (body <$> take k (drop a store)) ++ drop (a + k) store.
Proof.
  apply list_eq; intros i.
  rewrite forEach_lookup by apply NoDup_seq.
  destruct (decide (i < length store)%nat) as [Hlt|Hge].
  - destruct (decide (i < a)%nat).
    { rewrite decide_False by (rewrite elem_of_seq; lia).
      rewrite lookup_app_l by (rewrite length_take; lia).
      by rewrite lookup_take_lt. }
    rewrite lookup_app_r by (rewrite length_take; lia).
    rewrite length_take, Nat.min_l by lia.
    destruct (decide (i < a + k)%nat).
    + rewrite decide_True by (rewrite elem_of_seq; lia).
      rewrite lookup_app_l
        by (rewrite length_fmap, length_take, length_drop; lia).
      rewrite list_lookup_fmap, lookup_take_lt, lookup_drop by lia.
      do 2 f_equal. lia.
    + rewrite decide_False by (rewrite elem_of_seq; lia).
      rewrite lookup_app_r
        by (rewrite length_fmap, length_take, length_drop; lia).
      rewrite length_fmap, length_take, length_drop, lookup_drop.
      f_equal. lia.
  - rewrite (lookup_ge_None_2 store i) by lia.
    destruct (decide _); simpl; symmetry; apply lookup_ge_None_2;
      rewrite !length_app, length_fmap, !length_take, !length_drop; lia.
Qed.

Lemma forEach_refs body store :
  forEach body (refs store) store = body <$> store.
Proof.
  unfold refs. rewrite forEach_seq. simpl.
  rewrite drop_0, take_ge, drop_all by done. by rewrite app_nil_r.
Qed.

Lemma derefs_seq store (a k : nat) :
  (a + k ≤ length store)%nat →
  derefs store (seq a k) = Some (take k (drop a store)).
Proof.
  intros Hle. apply mapM_Some. apply Forall2_same_length_lookup. split.
  - rewrite length_seq, length_take, length_drop. lia.
  - intros i r m Hr Hm. apply lookup_seq in Hr as [-> ?].
    rewrite lookup_take_lt, lookup_drop in Hm by lia. done.
Qed.

Lemma derefs_refs store : derefs store (refs store) = Some store.
Proof.
  unfold refs. rewrite derefs_seq by (simpl; lia).
  by rewrite drop_0, take_ge by done.
Qed.

Lemma derefs_refs_length store0 store :
  length store0 = length store → derefs store (refs store0) = Some store.
Proof. intros Hlen. unfold refs. rewrite Hlen. apply derefs_refs. Qed.

Lemma forEach_prefix body (k : nat) store :
  forEach body (seq 0 k) store = (body <$> take k store) ++ drop k store.
Proof. by rewrite forEach_seq. Qed.

Lemma drop_refs (k : nat) (store0 : list IActionModel) :
  drop k (refs store0) = seq k (length store0 - k).
Proof. unfold refs. by rewrite drop_seq. Qed.

Lemma forEach_suffix body (k : nat) store0 store :
  length store0 = length store →
  forEach body (drop k (refs store0)) store
  = take k store ++ (body <$> drop k store).
Proof.
  intros Hlen. rewrite drop_refs, forEach_seq, Hlen.
  rewrite (take_ge (drop k store)) by (rewrite length_drop; lia).
  rewrite (drop_ge store (k + _)) by lia. by rewrite app_nil_r.
Qed.

Lemma derefs_prefix store (k : nat) :
  (k ≤ length store)%nat → derefs store (seq 0 k) = Some (take k store).
Proof. intros. by rewrite derefs_seq. Qed.

Lemma derefs_suffix (k : nat) store0 store :
  length store0 = length store →
  derefs store (drop k (refs store0)) = Some (drop k store).
Proof.
  intros Hlen. rewrite drop_refs, Hlen.
  destruct (decide (k ≤ length store)%nat).
  - rewrite derefs_seq by lia. f_equal. apply take_ge.
    rewrite length_drop. lia.
  - replace (length store - k)%nat with 0%nat by lia.
    by rewrite drop_ge by lia.
Qed.

Lemma fitCount_le w sz l : (fitCount w sz l ≤ length l)%nat.
Proof.
  revert sz. induction l as [|m l IH]; intros sz; simpl; [lia|].
  case_bool_decide; [|lia].
  specialize (IH (sz + (ACTION_PADDING + size m))). lia.
Qed.

Lemma hiddenCount_le w sz l : (hiddenCount w sz l ≤ length l)%nat.
Proof.
  revert sz. induction l as [|m l IH]; intros sz; simpl; [lia|].
  repeat case_bool_decide; try lia.
  - specialize (IH sz). lia.
  - specialize (IH (sz + (ACTION_PADDING + ICON_ONLY_ACTION_WIDTH))). lia.
Qed.

Lemma fmap_filter {A B} (f : A → B) (P : A → Prop) (Q : B → Prop)
    `{!∀ x, Decision (P x), !∀ y, Decision (Q y)} (l : list A) :
  Forall (λ x, P x ↔ Q (f x)) l →
  f <$> filter P l = filter Q (f <$> l).
Proof.
  induction 1 as [|x l Hx _ IH]; [done|].
  rewrite fmap_cons, !filter_cons.
  destruct (decide (P x)) as [HP|HP].
  - rewrite decide_True by (by apply Hx). by rewrite fmap_cons, IH.
  - rewrite decide_False by (by rewrite <- Hx). done.
Qed.

(** ** The loops *)

Lemma take_drop_cons (store : list IActionModel) (a k : nat) m :
  store !! a = Some m →
  take (S k) (drop a store) = m :: take k (drop (S a) store).
Proof. intros Hm. by rewrite (drop_S _ _ _ Hm). Qed.

Lemma fixedLoop_seq store w (a k : nat) sz acc :
  (a + k ≤ length store)%nat →
  fixedLoop store w (seq a k) sz acc
  = Some (acc ++ seq a (fitCount w sz (take k (drop a store)))).
Proof.
  revert a sz acc. induction k as [|k IH]; intros a sz acc Hle.
  - simpl. by rewrite app_nil_r.
  - destruct (lookup_lt_is_Some_2 store a) as [m Hm]; [lia|].
    rewrite (take_drop_cons _ _ _ _ Hm). simpl. rewrite Hm. simpl.
    case_bool_decide.
    + rewrite IH by lia. by rewrite <- app_assoc.
    + simpl. by rewrite app_nil_r.
Qed.

Lemma hiddenLoop_seq store w (n a k : nat) sz acc :
  (n ≤ length store)%nat → (a + k ≤ n)%nat →
  hiddenLoop store w (seq 0 n) (seq a k) sz acc
  = Some (acc ++ seq a (hiddenCount w sz (take k (drop a store))),
          hiddenSize w sz (take k (drop a store))).
Proof.
  intros Hn. revert a sz acc. induction k as [|k IH]; intros a sz acc Hle.
  - simpl. by rewrite app_nil_r.
  - destruct (lookup_lt_is_Some_2 store a) as [m Hm]; [lia|].
    rewrite (take_drop_cons _ _ _ _ Hm). simpl.
    rewrite lookup_seq_lt by lia. simpl. rewrite Hm. simpl.
    case_bool_decide; [|case_bool_decide].
    + rewrite IH by lia. by rewrite <- app_assoc.
    + rewrite IH by lia. by rewrite <- app_assoc.
    + simpl. by rewrite app_nil_r.
Qed.

Lemma separatorLoop_seq store w (n a k : nat) sum last :
  (n ≤ length store)%nat → (a + k ≤ n)%nat →
  separatorLoop store w (seq 0 n) (seq a k) sum last
  = Some (separatorScan w n a (take k (drop a store)) sum last).
Proof.
  intros Hn. revert a sum last. induction k as [|k IH]; intros a sum last Hle.
  - done.
  - destruct (lookup_lt_is_Some_2 store a) as [m Hm]; [lia|].
    rewrite (take_drop_cons _ _ _ _ Hm). simpl.
    rewrite lookup_seq_lt by lia. simpl. rewrite Hm. simpl.
    rewrite length_drop, length_seq.
    case_bool_decide; by rewrite IH by lia.
Qed.


(** ** The strategies compute the layouts *)

Section LayoutEquations.

Variable ToggleMenuAction_ID : string.

Lemma shown_all_visible (l : list IActionModel) :
  Forall (λ m, visible m = true) l →
  action <$> filter (shown ToggleMenuAction_ID) l
  = filter (notToggle ToggleMenuAction_ID) (action <$> l).
Proof.
  intros Hl. apply fmap_filter. eapply Forall_impl; [exact Hl|].
  intros m Hm. unfold shown, notToggle. tauto.
Qed.

Lemma hidden_all_invisible (l : list IActionModel) :
  Forall (λ m, visible m = false) l →
  action <$> filter (hidden ToggleMenuAction_ID) l
  = filter (notToggle ToggleMenuAction_ID) (action <$> l).
Proof.
  intros Hl. apply fmap_filter. eapply Forall_impl; [exact Hl|].
  intros m Hm. unfold hidden, notToggle. tauto.
Qed.

Lemma action_set_visible_unless_markdown m :
  action (set_visible_unless_markdown m) = action m.
Proof. unfold set_visible_unless_markdown. by case_bool_decide. Qed.

Lemma visible_set_visible_unless_markdown m :
  visible (set_visible_unless_markdown m)
  = bool_decide (id (action m) ≠ insertMarkdownCellBelow).
Proof.
  unfold set_visible_unless_markdown.
  case_bool_decide; simpl; symmetry.
  - by apply bool_decide_eq_false_2; intros ?.
  - by apply bool_decide_eq_true_2.
Qed.

Lemma shown_unless_markdown (l : list IActionModel) :
  action <$> filter (shown ToggleMenuAction_ID) (set_visible_unless_markdown <$> l)
  = filter (notMarkdownNorToggle ToggleMenuAction_ID) (action <$> l).
Proof.
  rewrite (fmap_filter action (shown ToggleMenuAction_ID)
             (notMarkdownNorToggle ToggleMenuAction_ID)).
  - rewrite <- list_fmap_compose. f_equal. apply list_fmap_ext.
    intros ? m _. apply action_set_visible_unless_markdown.
  - apply Forall_fmap, Forall_true. intros m.
    unfold shown, notMarkdownNorToggle. simpl.
    rewrite action_set_visible_unless_markdown,
      visible_set_visible_unless_markdown, bool_decide_eq_true. done.
Qed.

Lemma Forall_fmap_set_visible b (l : list IActionModel) :
  Forall (λ m, visible m = b) (set_visible b <$> l).
Proof. apply Forall_fmap, Forall_true. done. Qed.

Lemma action_set_visible b (l : list IActionModel) :
  action <$> (set_visible b <$> l) = action <$> l.
Proof. rewrite <- list_fmap_compose. done. Qed.

Lemma hasToggleMoreAction_Some store :
  store ≠ [] →
  ∃ m, last store = Some m
       ∧ hasToggleMoreAction ToggleMenuAction_ID store
         = Some (bool_decide (id (action m) = ToggleMenuAction_ID)).
Proof.
  intros Hne. destruct (last store) as [m|] eqn:Hlast.
  - exists m. split; [done|]. unfold hasToggleMoreAction. by rewrite Hlast.
  - by apply last_None in Hlast.
Qed.

Lemma actionCount_le store : 
  (actionCount ToggleMenuAction_ID store ≤ length store)%nat.
Proof.
  unfold actionCount. destruct (last store); [|lia]. case_bool_decide; lia.
Qed.

Lemma _calculateFixedActions_eq maxWidth tb :
  _primaryActions tb ≠ [] →
  _calculateFixedActions ToggleMenuAction_ID maxWidth tb
  = Some (fixedLayout ToggleMenuAction_ID maxWidth tb).
Proof.
  intros Hne. unfold _calculateFixedActions, fixedLayout.
  pose proof (actionCount_le (_primaryActions tb)) as Hn.
  destruct (hasToggleMoreAction_Some _ Hne) as (m & Hlast & ->).
  unfold actionCount in *. rewrite Hlast in *. simpl.
  set (store := _primaryActions tb) in *.
  set (n := (length store - _)%nat) in *.
  replace (length (refs store) - _)%nat with n
    by (unfold refs; by rewrite length_seq).
  rewrite fixedLoop_seq by (simpl; lia). simpl. rewrite drop_0.
  set (k := fitCount maxWidth 0 (take n store)).
  assert (k ≤ n)%nat as Hk.
  { etrans; [apply fitCount_le|]. rewrite length_take. lia. }
  rewrite length_seq, forEach_prefix.
  rewrite forEach_suffix
    by (rewrite length_app, length_fmap, length_take, length_drop; lia).
  rewrite take_app_length', drop_app_length'
    by (rewrite length_fmap, length_take; lia).
  rewrite derefs_prefix
    by (rewrite length_app, !length_fmap, length_take, length_drop; lia).
  simpl. rewrite derefs_suffix
    by (rewrite length_app, !length_fmap, length_take, length_drop; lia).
  simpl.
  rewrite take_app_length', drop_app_length'
    by (rewrite length_fmap, length_take; lia).
  rewrite shown_all_visible, hidden_all_invisible
    by apply Forall_fmap_set_visible.
  by rewrite !action_set_visible.
Qed.

Lemma hiddenCount_fmap f w sz (l : list IActionModel) :
  (∀ m, action (f m) = action m) →
  hiddenCount w sz (f <$> l) = hiddenCount w sz l.
Proof.
  intros Hf. revert sz. induction l as [|m l IH]; intros sz; [done|].
  simpl. rewrite Hf. by rewrite !IH.
Qed.

Lemma _calcuateWithAlllabelsHidden_eq (n : nat) maxWidth tb :
  (n ≤ length (_primaryActions tb))%nat →
  _calcuateWithAlllabelsHidden ToggleMenuAction_ID (seq 0 n) maxWidth tb
  = Some (hiddenLayout ToggleMenuAction_ID n maxWidth tb).
Proof.
  intros Hn. unfold _calcuateWithAlllabelsHidden, hiddenLayout.
  set (store := _primaryActions tb) in *.
  rewrite forEach_refs.
  set (unlabeled := set_renderLabel false <$> store).
  assert (length unlabeled = length store) as Hlen
    by apply length_fmap.
  rewrite length_seq, hiddenLoop_seq by lia. simpl. rewrite drop_0.
  set (j := hiddenCount maxWidth 0 (take n store)).
  assert (hiddenCount maxWidth 0 (take n unlabeled) = j) as ->.
  { unfold unlabeled. by rewrite <- fmap_take, hiddenCount_fmap. }
  assert (j ≤ n)%nat as Hj.
  { etrans; [apply hiddenCount_le|]. rewrite length_take. lia. }
  rewrite length_seq, forEach_prefix.
  rewrite forEach_suffix
    by (rewrite length_app, length_fmap, length_take, length_drop; lia).
  rewrite take_app_length', drop_app_length'
    by (rewrite length_fmap, length_take; lia).
  rewrite derefs_prefix
    by (rewrite length_app, !length_fmap, length_take, length_drop; lia).
  simpl. rewrite derefs_suffix
    by (rewrite length_app, !length_fmap, length_take, length_drop; lia).
  simpl.
  rewrite take_app_length' by (rewrite length_fmap, length_take; lia).
  rewrite drop_app_ge by (rewrite length_fmap, length_take; lia).
  rewrite length_fmap, length_take, Nat.min_l by lia.
  rewrite <- fmap_drop, drop_drop.
  replace (j + (n - j))%nat with n by lia.
  rewrite shown_unless_markdown.
  rewrite hidden_all_invisible by apply Forall_fmap_set_visible.
  rewrite action_set_visible. unfold unlabeled.
  rewrite <- fmap_take, <- fmap_drop, <- !list_fmap_compose. done.
Qed.

Lemma slice_refs (n : nat) (store : list IActionModel) :
  (n ≤ length store)%nat → slice 0 n (refs store) = seq 0 n.
Proof.
  intros Hn. unfold slice, refs. rewrite drop_0, take_seq. f_equal. lia.
Qed.

Lemma action_labeled b (l : list IActionModel) :
  action <$> (labeled b <$> l) = action <$> l.
Proof. rewrite <- list_fmap_compose. done. Qed.

Lemma Forall_visible_labeled b (l : list IActionModel) :
  Forall (λ m, visible m = true) (labeled b <$> l).
Proof. apply Forall_fmap, Forall_true. done. Qed.

Lemma calculateActions_dynamic_eq maxWidth tb :
  _primaryActions tb ≠ [] →
  calculateActions_dynamic ToggleMenuAction_ID maxWidth tb
  = Some (dynamicLayout ToggleMenuAction_ID maxWidth tb).
Proof.
  intros Hne. unfold calculateActions_dynamic, dynamicLayout.
  pose proof (actionCount_le (_primaryActions tb)) as Hn.
  destruct (hasToggleMoreAction_Some _ Hne) as (m & Hlast & ->).
  unfold actionCount in *. rewrite Hlast in *. simpl.
  set (store := _primaryActions tb) in *.
  set (n := (length store - _)%nat) in *.
  replace (length (refs store) - _)%nat with n
    by (unfold refs; by rewrite length_seq).
  rewrite slice_refs, length_seq by done.
  case_bool_decide as Hn0.
  { by rewrite derefs_refs. }
  unfold totalWidthWithLabels.
  rewrite derefs_prefix, length_seq by done. simpl.
  replace (labeledWidth (withoutSentinel ToggleMenuAction_ID store))
    with (foldl Z.add 0 (size <$> take n store)
          + (Z.of_nat n - 1) * ACTION_PADDING).
  2:{ unfold labeledWidth, withoutSentinel, actionCount.
      rewrite Hlast. fold n. rewrite length_take.
      by replace (n `min` length store)%nat with n by lia. }
  case_bool_decide as Htotal.
  { rewrite forEach_refs.
    change (λ m0, set_renderLabel true (set_visible true m0))
      with (labeled true).
    rewrite derefs_refs_length by (by rewrite length_fmap). simpl.
    by rewrite shown_all_visible, action_labeled
      by apply Forall_visible_labeled. }
  case_bool_decide as Hicon.
  { by apply _calcuateWithAlllabelsHidden_eq. }
  rewrite separatorLoop_seq by lia. simpl. rewrite drop_0.
  case_bool_decide as Hlast0.
  { by apply _calcuateWithAlllabelsHidden_eq. }
  unfold slice. rewrite drop_0, take_seq, length_seq.
  set (v := (Z.to_nat _ `min` n)%nat).
  rewrite forEach_prefix.
  rewrite forEach_suffix
    by (rewrite length_app, length_fmap, length_take, length_drop; lia).
  rewrite take_app_length', drop_app_length'
    by (rewrite length_fmap, length_take; lia).
  change (λ m0, set_renderLabel true (set_visible true m0))
    with (labeled true).
  change (λ m0, set_renderLabel false (set_visible true m0))
    with (labeled false).
  set (store' := _ ++ _).
  assert (length store' = length store) as Hlen
    by (unfold store';
        rewrite length_app, !length_fmap, length_take, length_drop; lia).
  rewrite derefs_refs_length by done.
  simpl. rewrite shown_all_visible.
  - unfold store'. rewrite fmap_app, !action_labeled, <- fmap_app.
    by rewrite take_drop.
  - unfold store'. apply Forall_app; split; apply Forall_visible_labeled.
Qed.


End LayoutEquations.

(** ** Every strategy computes its layout *)

Section StrategyProperties.

Variable ToggleMenuAction_ID : string.
Variable SELECT_KERNEL_ID : string.

Lemma calculateActions_eq s maxWidth tb :
  _primaryActions tb ≠ [] →
  calculateActions ToggleMenuAction_ID s maxWidth tb
  = Some (strategyLayout ToggleMenuAction_ID s maxWidth tb).
Proof.
  intros Hne. destruct s; simpl;
    auto using _calculateFixedActions_eq, calculateActions_dynamic_eq.
Qed.

Lemma calculateActions_empty s maxWidth tb :
  _primaryActions tb = [] →
  calculateActions ToggleMenuAction_ID s maxWidth tb = None.
Proof.
  intros Hnil.
  destruct s; simpl;
    unfold _calculateFixedActions, calculateActions_dynamic,
      hasToggleMoreAction; by rewrite Hnil.
Qed.

Lemma withoutSentinel_nonempty store :
  withoutSentinel ToggleMenuAction_ID store ≠ [] → store ≠ [].
Proof. intros Hne ->. by apply Hne. Qed.

Lemma length_withoutSentinel store :
  length (withoutSentinel ToggleMenuAction_ID store)
  = actionCount ToggleMenuAction_ID store.
Proof.
  unfold withoutSentinel. rewrite length_take.
  pose proof (actionCount_le ToggleMenuAction_ID store). lia.
Qed.

Lemma Forall_filter_holds {A} (P : A → Prop) `{!∀ x, Decision (P x)}
    (l : list A) :
  Forall P (filter P l).
Proof.
  apply Forall_forall. intros x Hx.
  by apply list_elem_of_filter in Hx as [? _].
Qed.

(** C1.  When the primary list without a trailing toggle-more sentinel is
    not empty and its total labeled width (the sizes plus [ACTION_PADDING]
    between consecutive actions) is at most [maxWidth],
    [DynamicLabelStrategy.calculateActions] returns; afterwards every model
    has [visible = true] and [renderLabel = true] and is otherwise the
    model it was; the primary output is every action but the sentinel, and
    the secondary output is the pre-existing secondary list. *)
Theorem dynamic_all_labels_fit maxWidth tb :
  withoutSentinel ToggleMenuAction_ID (_primaryActions tb) ≠ [] →
  labeledWidth (withoutSentinel ToggleMenuAction_ID (_primaryActions tb))
    ≤ maxWidth →
  ∃ p tb',
    calculateActions ToggleMenuAction_ID DynamicLabelStrategy maxWidth tb
      = Some (p, tb')
    ∧ Forall (λ m, visible m = true ∧ renderLabel m = true)
        (_primaryActions tb')
    ∧ action <$> _primaryActions tb' = action <$> _primaryActions tb
    ∧ size <$> _primaryActions tb' = size <$> _primaryActions tb
    ∧ primaryActions p
      = filter (notToggle ToggleMenuAction_ID) (action <$> _primaryActions tb)
    ∧ secondaryActions p = _secondaryActions tb
    ∧ _secondaryActions tb' = _secondaryActions tb.
Proof.
  intros Hne Hfit.
  rewrite calculateActions_eq by by eapply withoutSentinel_nonempty.
  simpl. unfold dynamicLayout.
  rewrite bool_decide_eq_false_2.
  2:{ rewrite <- length_withoutSentinel. by destruct (withoutSentinel _ _). }
  rewrite bool_decide_eq_true_2 by done.
  eexists _, _. split; [done|]. simpl.
  repeat split; try done.
  - apply Forall_fmap, Forall_true. done.
  - by rewrite <- list_fmap_compose.
  - by rewrite <- list_fmap_compose.
Qed.

(** Whatever a strategy returns, its primary output has no action with
    the toggle-more id, and its secondary output is the pre-existing list
    behind an overflow part that has none either. *)
Lemma strategyLayout_notToggle s maxWidth tb :
  let p := (strategyLayout ToggleMenuAction_ID s maxWidth tb).1 in
  Forall (notToggle ToggleMenuAction_ID) (primaryActions p)
  ∧ ∃ overflow,
      secondaryActions p = overflow ++ _secondaryActions tb
      ∧ Forall (notToggle ToggleMenuAction_ID) overflow.
Proof.
  assert (∀ l : list IActionModel,
    Forall (notToggle ToggleMenuAction_ID)
      (action <$> filter (shown ToggleMenuAction_ID) l)) as Hshown.
  { intros l. apply Forall_fmap, Forall_forall. intros m Hm.
    by apply list_elem_of_filter in Hm as [[_ ?] _]. }
  assert (∀ l : list IAction,
    Forall (notToggle ToggleMenuAction_ID)
      (filter (notMarkdownNorToggle ToggleMenuAction_ID) l)) as Hmd.
  { intros l. apply Forall_forall. intros m Hm.
    by apply list_elem_of_filter in Hm as [[_ ?] _]. }
  assert (∀ n, let p := (hiddenLayout ToggleMenuAction_ID n maxWidth tb).1 in
    Forall (notToggle ToggleMenuAction_ID) (primaryActions p)
    ∧ ∃ overflow,
        secondaryActions p = overflow ++ _secondaryActions tb
        ∧ Forall (notToggle ToggleMenuAction_ID) overflow) as Hhidden.
  { intros n. simpl. split; [apply Hmd|].
    eexists. split; [done|]. apply Forall_filter_holds. }
  assert (∀ primary,
    Forall (notToggle ToggleMenuAction_ID) primary →
    Forall (notToggle ToggleMenuAction_ID) primary
    ∧ ∃ overflow,
        _secondaryActions tb = overflow ++ _secondaryActions tb
        ∧ Forall (notToggle ToggleMenuAction_ID) overflow) as Hall.
  { intros primary Hprimary. split; [done|]. by exists []. }
  destruct s; simpl; unfold fixedLayout, dynamicLayout; simpl.
  1,2: split; [apply Forall_filter_holds|];
       eexists; split; [done|]; apply Forall_filter_holds.
  repeat case_bool_decide; simpl; try apply Hhidden;
    apply Hall; first [apply Forall_filter_holds | apply Hshown].
Qed.

(** C2.  For each of the three strategies and every width: when the last
    primary action is the toggle-more sentinel (and that action is not
    among the pre-existing secondary actions, which are passed through),
    [calculateActions] returns and the sentinel is in neither output. No
    action with the sentinel's id is in the primary output or in what the
    strategy adds in front of the pre-existing secondary actions. *)
Theorem toggle_more_excluded s maxWidth tb sentinel :
  last (_primaryActions tb) = Some sentinel →
  id (action sentinel) = ToggleMenuAction_ID →
  action sentinel ∉ _secondaryActions tb →
  ∃ p tb',
    calculateActions ToggleMenuAction_ID s maxWidth tb = Some (p, tb')
    ∧ (action sentinel ∉ primaryActions p)
    ∧ (action sentinel ∉ secondaryActions p)
    ∧ Forall (notToggle ToggleMenuAction_ID) (primaryActions p)
    ∧ ∃ overflow,
        secondaryActions p = overflow ++ _secondaryActions tb
        ∧ Forall (notToggle ToggleMenuAction_ID) overflow.
Proof.
  intros Hlast Hid Hsec.
  assert (_primaryActions tb ≠ []) as Hne.
  { intros Hnil. by rewrite Hnil in Hlast. }
  rewrite calculateActions_eq by done.
  destruct (strategyLayout ToggleMenuAction_ID s maxWidth tb) as [p tb'] eqn:Hl.
  pose proof (strategyLayout_notToggle s maxWidth tb) as Hnt.
  rewrite Hl in Hnt. simpl in Hnt. destruct Hnt as (Hp & ov & Hov & Hnov).
  exists p, tb'. split; [done|].
  assert (∀ l, Forall (notToggle ToggleMenuAction_ID) l → action sentinel ∉ l)
    as Hnotin.
  { intros l Hl' Hin. rewrite Forall_forall in Hl'. by apply (Hl' _ Hin). }
  repeat split; [by apply Hnotin| |done|by exists ov].
  rewrite Hov, elem_of_app. intros [Hin|Hin]; [by eapply Hnotin|done].
Qed.

(** The full-degrade path contributes nothing to the overflow: what it
    returns as secondary is the pre-existing list. *)
Lemma hiddenLayout_secondary maxWidth tb :
  let store := _primaryActions tb in
  secondaryActions
    (hiddenLayout ToggleMenuAction_ID
       (actionCount ToggleMenuAction_ID store) maxWidth tb).1
  = _secondaryActions tb.
Proof.
  simpl. unfold actionCount.
  destruct (last (_primaryActions tb)) as [m|] eqn:Hlast.
  2:{ apply last_None in Hlast. by rewrite Hlast. }
  apply last_Some in Hlast as [l Hl]. rewrite Hl.
  case_bool_decide as Hid.
  - rewrite length_app. simpl.
    replace (length l + 1 - 1)%nat with (length l) by lia.
    rewrite drop_app_length. simpl. rewrite filter_cons.
    by rewrite decide_False by (intros Hn; by apply Hn).
  - rewrite Nat.sub_0_r, drop_all. done.
Qed.

Lemma degrade_contributes_no_overflow maxWidth tb p tb' :
  _calcuateWithAlllabelsHidden ToggleMenuAction_ID
    (seq 0 (actionCount ToggleMenuAction_ID (_primaryActions tb))) maxWidth tb
  = Some (p, tb') →
  secondaryActions p = _secondaryActions tb.
Proof.
  rewrite _calcuateWithAlllabelsHidden_eq by apply actionCount_le.
  intros [= <- _]. apply hiddenLayout_secondary.
Qed.

Lemma hiddenSize_count w sz (l : list IActionModel) :
  hiddenSize w sz l
  = sz + (ACTION_PADDING + ICON_ONLY_ACTION_WIDTH)
         * Z.of_nat (length (filter
                               (λ m, id (action m) ≠ insertMarkdownCellBelow)
                               (take (hiddenCount w sz l) l))).
Proof.
  revert sz. induction l as [|m l IH]; intros sz; simpl; [lia|].
  case_bool_decide as Hmd; [|case_bool_decide as Hfit]; simpl.
  - rewrite filter_cons, decide_False by (intros Hn; by apply Hn).
    apply IH.
  - rewrite filter_cons, decide_True by done. simpl length.
    rewrite IH. lia.
  - lia.
Qed.

Lemma hiddenCount_stop w sz (l : list IActionModel) :
  (hiddenCount w sz l < length l)%nat →
  ∃ m, l !! hiddenCount w sz l = Some m
       ∧ id (action m) ≠ insertMarkdownCellBelow
       ∧ ¬ (hiddenSize w sz l + ICON_ONLY_ACTION_WIDTH ≤ w).
Proof.
  revert sz. induction l as [|m l IH]; intros sz; simpl; [lia|].
  case_bool_decide as Hmd; [|case_bool_decide as Hfit]; simpl; intros Hlt.
  - apply IH. lia.
  - apply IH. lia.
  - by exists m.
Qed.

(** The walk gets past a markdown action exactly when the actions with
    another id before it fit as icons. *)
Lemma hiddenCount_reaches w sz (l : list IActionModel) (i : nat) m :
  l !! i = Some m → id (action m) = insertMarkdownCellBelow →
  let c := length (filter (λ m, id (action m) ≠ insertMarkdownCellBelow)
                     (take i l)) in
  (i < hiddenCount w sz l)%nat ↔ (c ≠ 0%nat → sz + iconOnlyWidth c ≤ w).
Proof.
  revert sz i. induction l as [|m0 l IH]; intros sz i Hi Hmd; [done|].
  destruct i as [|i].
  - injection Hi as ->. simpl.
    rewrite (bool_decide_eq_true_2 _ Hmd). split; [done|lia].
  - simpl in Hi. simpl.
    case_bool_decide as Hmd0; [|case_bool_decide as Hfit].
    + rewrite filter_cons, decide_False by (intros Hn; by apply Hn).
      rewrite <- (IH sz i Hi Hmd). lia.
    + rewrite filter_cons, decide_True by done. simpl length.
      pose proof (IH (sz + (ACTION_PADDING + ICON_ONLY_ACTION_WIDTH)) i Hi Hmd)
        as Hreach. simpl in Hreach.
      destruct (length (filter _ (take i l))) as [|c'];
        unfold iconOnlyWidth, ICON_ONLY_ACTION_WIDTH, ACTION_PADDING in *; lia.
    + rewrite filter_cons, decide_True by done. simpl length.
      unfold iconOnlyWidth, ICON_ONLY_ACTION_WIDTH, ACTION_PADDING in *. lia.
Qed.

(** C4.  The full-degrade path [_calcuateWithAlllabelsHidden], called as
    [calculateActions] calls it, at every width.  The walk keeps the first
    [j] actions; it never stops at an action with id
    ['notebook.cell.insertMarkdownCellBelow'] (where it stops, an action
    with another id failed the width test), so such an action is pushed
    without a width test when the walk reaches it.  It is not in every
    walk: the action at index [i] is pushed exactly when the actions with
    another id before it, as icons with [ACTION_PADDING] between them, are
    at most [maxWidth] wide, or there is none; otherwise the walk has
    stopped before it.  The running total [size] counts
    [ACTION_PADDING + ICON_ONLY_ACTION_WIDTH] for each kept action with
    another id and nothing for that one.  Afterwards every model with that
    id, pushed or not, has [visible = false], and no action with that id is
    in the primary output. *)
Theorem markdown_walked_but_invisible maxWidth tb :
  let store := _primaryActions tb in
  let n := actionCount ToggleMenuAction_ID store in
  ∃ j size_ p tb',
    hiddenLoop (forEach (set_renderLabel false) (refs store) store)
      maxWidth (seq 0 n) (seq 0 n) 0 [] = Some (seq 0 j, size_)
    ∧ _calcuateWithAlllabelsHidden ToggleMenuAction_ID (seq 0 n) maxWidth tb
      = Some (p, tb')
    ∧ (j ≤ n)%nat
    ∧ ((j < n)%nat →
       ∃ m, store !! j = Some m
            ∧ id (action m) ≠ insertMarkdownCellBelow
            ∧ ¬ (size_ + ICON_ONLY_ACTION_WIDTH ≤ maxWidth))
    ∧ size_
      = (ACTION_PADDING + ICON_ONLY_ACTION_WIDTH)
        * Z.of_nat (length (filter
                              (λ m, id (action m) ≠ insertMarkdownCellBelow)
                              (take j store)))
    ∧ Forall (λ m, id (action m) = insertMarkdownCellBelow → visible m = false)
        (_primaryActions tb')
    ∧ Forall (λ a, id a ≠ insertMarkdownCellBelow) (primaryActions p)
    ∧ (∀ (i : nat) m,
         (i < n)%nat → store !! i = Some m →
         id (action m) = insertMarkdownCellBelow →
         let c := length (filter
                            (λ m, id (action m) ≠ insertMarkdownCellBelow)
                            (take i store)) in
         i ∈ seq 0 j ↔ (c ≠ 0%nat → iconOnlyWidth c ≤ maxWidth)).
Proof.
  intros store n.
  pose proof (actionCount_le ToggleMenuAction_ID store) as Hn. fold n in Hn.
  rewrite forEach_refs, hiddenLoop_seq
    by (rewrite ?length_fmap; lia).
  rewrite _calcuateWithAlllabelsHidden_eq by done.
  rewrite drop_0, <- fmap_take. simpl.
  set (models := take n store).
  assert (length models = n) as Hlen
    by (unfold models; rewrite length_take; lia).
  rewrite hiddenCount_fmap by done.
  assert (∀ w sz l, hiddenSize w sz (set_renderLabel false <$> l)
                    = hiddenSize w sz l) as ->.
  { intros w sz l. revert sz. induction l as [|m l IH]; intros sz; [done|].
    simpl. by rewrite !IH. }
  pose proof (hiddenCount_le maxWidth 0 models) as Hj.
  eexists _, _, _, _. split; [done|]. split; [done|].
  unfold hiddenLayout. fold store n models. simpl.
  set (j := hiddenCount maxWidth 0 models) in *.
  split; [lia|]. split; [|split; [|split; [|split]]].
  - intros Hlt.
    destruct (hiddenCount_stop maxWidth 0 models) as (m & Hm & ? & ?);
      [fold j; lia|].
    exists m. split; [|done]. fold j in Hm. unfold models in Hm.
    by rewrite lookup_take_lt in Hm by lia.
  - rewrite hiddenSize_count. fold j. unfold models.
    rewrite take_take. replace (j `min` n)%nat with j by lia. lia.
  - apply Forall_app; split; apply Forall_fmap, Forall_true; intros m;
      [|done]. simpl.
    rewrite action_set_visible_unless_markdown,
      visible_set_visible_unless_markdown.
    intros Hmd. apply bool_decide_eq_false_2. by intros Hnot.
  - apply Forall_forall. intros a Ha.
    by apply list_elem_of_filter in Ha as [[? _] _].
  - intros i m Hi Hm Hmd. cbv zeta.
    assert (models !! i = Some m) as Hm'
      by (unfold models; by rewrite lookup_take_lt by lia).
    pose proof (hiddenCount_reaches maxWidth 0 models i m Hm' Hmd) as Hreach.
    cbv zeta in Hreach. fold j in Hreach. unfold models in Hreach.
    rewrite take_take in Hreach.
    replace (i `min` n)%nat with i in Hreach by lia.
    rewrite Z.add_0_l in Hreach. rewrite <- Hreach.
    rewrite elem_of_seq. lia.
Qed.

(** C8.  [FixedLabellessStrategy.actionProvider] never returns an
    [ActionViewWithLabel], whatever [renderLabel] the models carry; the
    kernel-picker id gets the [NotebookKernelActionViewItem], and every
    other action the plain [MenuEntryActionViewItem] (or nothing, when it
    is not a [MenuItemAction]). *)
Theorem labelless_never_labels tb a :
  actionProvider SELECT_KERNEL_ID FixedLabellessStrategy tb a
    ≠ ActionViewWithLabel
  ∧ (id a = SELECT_KERNEL_ID →
     actionProvider SELECT_KERNEL_ID FixedLabellessStrategy tb a
     = NotebookKernelActionViewItem)
  ∧ (id a ≠ SELECT_KERNEL_ID →
     actionProvider SELECT_KERNEL_ID FixedLabellessStrategy tb a
     = if bool_decide (class a = MenuItemAction)
       then MenuEntryActionViewItem else undefined).
Proof.
  unfold actionProvider, menuItemView.
  repeat case_bool_decide; done.
Qed.






Lemma fitCount_mono w1 w2 sz (l : list IActionModel) :
  w2 ≤ w1 → (fitCount w2 sz l ≤ fitCount w1 sz l)%nat.
Proof.
  intros Hw. revert sz. induction l as [|m l IH]; intros sz; simpl; [done|].
  repeat case_bool_decide; try lia.
  specialize (IH (sz + (ACTION_PADDING + size m))). lia.
Qed.

Lemma hiddenCount_mono w1 w2 sz (l : list IActionModel) :
  w2 ≤ w1 → (hiddenCount w2 sz l ≤ hiddenCount w1 sz l)%nat.
Proof.
  intros Hw. revert sz. induction l as [|m l IH]; intros sz; simpl; [done|].
  repeat case_bool_decide; try lia.
  - specialize (IH sz). lia.
  - specialize (IH (sz + (ACTION_PADDING + ICON_ONLY_ACTION_WIDTH))). lia.
Qed.

Lemma separatorScan_mono w1 w2 (n i : nat) (l : list IActionModel)
    sum last1 last2 :
  w2 ≤ w1 → (0 ≤ last2 → 0 ≤ last1) →
  0 ≤ separatorScan w2 n i l sum last2 →
  0 ≤ separatorScan w1 n i l sum last1.
Proof.
  intros Hw. revert i sum last1 last2.
  induction l as [|m l IH]; intros i sum last1 last2 Hlast; simpl; [done|].
  case_bool_decide; apply IH; [|done].
  repeat case_bool_decide; lia.
Qed.

Lemma length_filter_take_mono {A} (P : A → Prop) `{!∀ x, Decision (P x)}
    (l : list A) (k1 k2 : nat) :
  (k1 ≤ k2)%nat →
  (length (filter P (take k1 l)) ≤ length (filter P (take k2 l)))%nat.
Proof.
  intros Hk. replace k2 with (k1 + (k2 - k1))%nat by lia.
  rewrite <- take_take_drop, filter_app, length_app. lia.
Qed.

Lemma length_filter_impl {A} (P Q : A → Prop)
    `{!∀ x, Decision (P x), !∀ x, Decision (Q x)} (l : list A) :
  (∀ x, P x → Q x) →
  (length (filter P l) ≤ length (filter Q l))%nat.
Proof.
  intros HPQ. induction l as [|x l IH]; [done|].
  rewrite !filter_cons. destruct (decide (P x)).
  - rewrite decide_True by auto. simpl. lia.
  - destruct (decide (Q x)); simpl; lia.
Qed.

Lemma length_filter_take {A} (P : A → Prop) `{!∀ x, Decision (P x)}
    (l : list A) (k : nat) :
  (length (filter P (take k l)) ≤ length (filter P l))%nat.
Proof.
  rewrite <- (take_drop k l) at 2. rewrite filter_app, length_app. lia.
Qed.

Lemma hiddenLayout_count_le n maxWidth tb :
  (length (primaryActions (hiddenLayout ToggleMenuAction_ID n maxWidth tb).1)
   ≤ length (filter (notToggle ToggleMenuAction_ID)
               (action <$> _primaryActions tb)))%nat.
Proof.
  simpl. rewrite fmap_take.
  etrans; [apply length_filter_take|].
  apply length_filter_impl. by intros a [_ ?].
Qed.

Lemma hiddenLayout_count_mono n w1 w2 tb :
  w2 ≤ w1 →
  (length (primaryActions (hiddenLayout ToggleMenuAction_ID n w2 tb).1)
   ≤ length (primaryActions (hiddenLayout ToggleMenuAction_ID n w1 tb).1))%nat.
Proof.
  intros Hw. simpl. rewrite !fmap_take.
  by apply length_filter_take_mono, hiddenCount_mono.
Qed.

(** C6.  For every strategy and every non-empty primary list, a smaller
    width never yields more primary actions: for [w2 ≤ w1] both calls
    return, and the primary output at [w2] is at most as long as the one
    at [w1]. *)
Theorem primary_count_monotone s w1 w2 tb :
  _primaryActions tb ≠ [] → w2 ≤ w1 →
  ∃ p1 tb1 p2 tb2,
    calculateActions ToggleMenuAction_ID s w1 tb = Some (p1, tb1)
    ∧ calculateActions ToggleMenuAction_ID s w2 tb = Some (p2, tb2)
    ∧ (length (primaryActions p2) ≤ length (primaryActions p1))%nat.
Proof.
  intros Hne Hw. rewrite !calculateActions_eq by done.
  destruct (strategyLayout _ s w1 tb) as [p1 tb1] eqn:H1.
  destruct (strategyLayout _ s w2 tb) as [p2 tb2] eqn:H2.
  exists p1, tb1, p2, tb2. split; [done|]. split; [done|].
  replace p1 with (strategyLayout ToggleMenuAction_ID s w1 tb).1
    by (by rewrite H1).
  replace p2 with (strategyLayout ToggleMenuAction_ID s w2 tb).1
    by (by rewrite H2).
  clear H1 H2.
  assert (length (primaryActions (fixedLayout ToggleMenuAction_ID w2 tb).1)
          ≤ length (primaryActions (fixedLayout ToggleMenuAction_ID w1 tb).1))%nat
    as Hfixed.
  { simpl. rewrite !fmap_take.
    by apply length_filter_take_mono, fitCount_mono. }
  destruct s; simpl strategyLayout; [done|done|].
  unfold dynamicLayout.
  set (n := actionCount ToggleMenuAction_ID (_primaryActions tb)).
  pose proof (hiddenLayout_count_le n w2 tb).
  pose proof (hiddenLayout_count_mono n w1 w2 tb Hw).
  pose proof (separatorScan_mono w1 w2 n 0 (take n (_primaryActions tb))
                0 (-1) (-1) Hw (λ H, H)).
  repeat case_bool_decide; simpl fst; simpl primaryActions;
    first [lia | assumption].
Qed.

(** *** A layout pass only reads what it does not write *)

Lemma sameEntity_action l1 l2 :
  Forall2 sameEntity l1 l2 → action <$> l1 = action <$> l2.
Proof. induction 1 as [|m1 m2 l1 l2 [Ha _] _ IH]; [done|]. simpl. by f_equal. Qed.

Lemma sameEntity_size l1 l2 :
  Forall2 sameEntity l1 l2 → size <$> l1 = size <$> l2.
Proof. induction 1 as [|m1 m2 l1 l2 [_ Hs] _ IH]; [done|]. simpl. by f_equal. Qed.

Lemma sameEntity_fitCount w sz l1 l2 :
  Forall2 sameEntity l1 l2 → fitCount w sz l1 = fitCount w sz l2.
Proof.
  intros H. revert sz.
  induction H as [|m1 m2 l1 l2 [_ Hs] _ IH]; intros sz; [done|].
  simpl. rewrite Hs. by rewrite IH.
Qed.

Lemma sameEntity_hiddenCount w sz l1 l2 :
  Forall2 sameEntity l1 l2 → hiddenCount w sz l1 = hiddenCount w sz l2.
Proof.
  intros H. revert sz.
  induction H as [|m1 m2 l1 l2 [Ha _] _ IH]; intros sz; [done|].
  simpl. rewrite Ha. by rewrite !IH.
Qed.

Lemma sameEntity_separatorScan w n i sum last l1 l2 :
  Forall2 sameEntity l1 l2 →
  separatorScan w n i l1 sum last = separatorScan w n i l2 sum last.
Proof.
  intros H. revert i sum last.
  induction H as [|m1 m2 l1 l2 [Ha Hs] _ IH]; intros i sum last; [done|].
  simpl. rewrite Ha, Hs. by rewrite !IH.
Qed.

Lemma sameEntity_actionCount l1 l2 :
  Forall2 sameEntity l1 l2 →
  actionCount ToggleMenuAction_ID l1 = actionCount ToggleMenuAction_ID l2.
Proof.
  intros H. unfold actionCount.
  pose proof (Forall2_length _ _ _ H) as Hlen.
  pose proof (sameEntity_action _ _ H) as Ha.
  apply (f_equal last) in Ha. rewrite !fmap_last in Ha.
  destruct (last l1) as [m1|], (last l2) as [m2|]; try done.
  simpl in Ha. injection Ha as ->. by rewrite Hlen.
Qed.

Lemma sameEntity_labeledWidth l1 l2 :
  Forall2 sameEntity l1 l2 → labeledWidth l1 = labeledWidth l2.
Proof.
  intros H. unfold labeledWidth.
  by rewrite (sameEntity_size _ _ H), (Forall2_length _ _ _ H).
Qed.

Lemma sameEntity_withoutSentinel l1 l2 :
  Forall2 sameEntity l1 l2 →
  Forall2 sameEntity (withoutSentinel ToggleMenuAction_ID l1)
    (withoutSentinel ToggleMenuAction_ID l2).
Proof.
  intros H. unfold withoutSentinel.
  rewrite (sameEntity_actionCount _ _ H). by apply Forall2_take.
Qed.

Lemma sameEntity_relabel f g (k : nat) l :
  (∀ m, sameEntity (f m) m) → (∀ m, sameEntity (g m) m) →
  Forall2 sameEntity ((f <$> take k l) ++ (g <$> drop k l)) l.
Proof.
  intros Hf Hg. rewrite <- (take_drop k l) at 3.
  apply Forall2_app; apply Forall2_fmap_l, Forall_Forall2_diag, Forall_true;
    done.
Qed.

Lemma relabel_idempotent f g (k : nat) (l : list IActionModel) :
  (k ≤ length l)%nat →
  (∀ m, f (f m) = f m) → (∀ m, g (g m) = g m) →
  let l' := (f <$> take k l) ++ (g <$> drop k l) in
  (f <$> take k l') ++ (g <$> drop k l') = l'.
Proof.
  intros Hk Hf Hg l'. unfold l'.
  rewrite take_app_length', drop_app_length'
    by (rewrite length_fmap, length_take; lia).
  rewrite <- !list_fmap_compose.
  apply (f_equal2 app); apply list_fmap_ext; intros ? m _; simpl; auto.
Qed.

Lemma set_visible_unless_markdown_idempotent m :
  set_visible_unless_markdown (set_visible_unless_markdown m)
  = set_visible_unless_markdown m.
Proof.
  unfold set_visible_unless_markdown at 1.
  rewrite action_set_visible_unless_markdown.
  unfold set_visible_unless_markdown. by case_bool_decide.
Qed.

Lemma sameEntity_hiddenState (j : nat) store :
  Forall2 sameEntity
    ((set_visible_unless_markdown <$> take j (set_renderLabel false <$> store))
     ++ (set_visible false <$> drop j (set_renderLabel false <$> store)))
    store.
Proof.
  rewrite <- fmap_take, <- fmap_drop, <- !list_fmap_compose.
  apply sameEntity_relabel; intros m; unfold sameEntity; simpl; [|done].
  by rewrite action_set_visible_unless_markdown;
    unfold set_visible_unless_markdown; case_bool_decide.
Qed.

Lemma fixedLayout_idempotent maxWidth tb :
  fixedLayout ToggleMenuAction_ID maxWidth
    (fixedLayout ToggleMenuAction_ID maxWidth tb).2
  = fixedLayout ToggleMenuAction_ID maxWidth tb.
Proof.
  unfold fixedLayout at 1 3. simpl.
  set (store := _primaryActions tb).
  set (k := fitCount maxWidth 0 (take (actionCount _ store) store)).
  set (store' := _ ++ _).
  assert (Forall2 sameEntity store' store) as Hsame
    by (by apply sameEntity_relabel).
  assert (k ≤ length store)%nat as Hk.
  { etrans; [apply fitCount_le|]. rewrite length_take. lia. }
  rewrite (sameEntity_actionCount _ _ Hsame).
  rewrite (sameEntity_fitCount _ _ _ _
             (Forall2_take _ _ _ _ Hsame)). fold k.
  rewrite !fmap_take, !fmap_drop, (sameEntity_action _ _ Hsame).
  rewrite <- !fmap_take, <- !fmap_drop.
  unfold store'. rewrite relabel_idempotent by done. done.
Qed.

Lemma hiddenLayout_idempotent n maxWidth tb :
  (n ≤ length (_primaryActions tb))%nat →
  hiddenLayout ToggleMenuAction_ID n maxWidth
    (hiddenLayout ToggleMenuAction_ID n maxWidth tb).2
  = hiddenLayout ToggleMenuAction_ID n maxWidth tb.
Proof.
  intros Hn. unfold hiddenLayout at 1 3. simpl.
  set (store := _primaryActions tb) in *.
  set (unlabeled := set_renderLabel false <$> store).
  set (j := hiddenCount maxWidth 0 (take n store)).
  set (store' := _ ++ _).
  assert (Forall2 sameEntity store' store) as Hsame
    by apply sameEntity_hiddenState.
  assert (j ≤ length unlabeled)%nat as Hj.
  { unfold unlabeled. rewrite length_fmap. etrans; [apply hiddenCount_le|].
    rewrite length_take. lia. }
  assert (set_renderLabel false <$> store' = store') as Hstore'.
  { unfold store', unlabeled.
    rewrite fmap_app, <- !fmap_take, <- !fmap_drop, <- !list_fmap_compose.
    apply (f_equal2 app); apply list_fmap_ext; intros ? m _; simpl; [|done].
    unfold set_visible_unless_markdown. simpl. by case_bool_decide. }
  rewrite Hstore'.
  rewrite (sameEntity_hiddenCount _ _ _ _
             (Forall2_take _ _ _ _ Hsame)). fold j.
  rewrite !fmap_take, !fmap_drop, (sameEntity_action _ _ Hsame).
  rewrite <- !fmap_take, <- !fmap_drop.
  unfold store'.
  rewrite relabel_idempotent;
    auto using set_visible_unless_markdown_idempotent.
Qed.

Lemma with_primaryActions_id tb : with_primaryActions (_primaryActions tb) tb = tb.
Proof. by destruct tb. Qed.

(** [dynamicLayout] on any store that holds the same entities as [tb]'s:
    every test it makes has the outcome it has on [tb]. *)
Lemma dynamicLayout_sameEntity maxWidth tb store' :
  let store := _primaryActions tb in
  let n := actionCount ToggleMenuAction_ID store in
  Forall2 sameEntity store' store →
  dynamicLayout ToggleMenuAction_ID maxWidth (with_primaryActions store' tb)
  = let all := {| primaryActions :=
                    filter (notToggle ToggleMenuAction_ID) (action <$> store);
                  secondaryActions := _secondaryActions tb |} in
    if bool_decide (n = 0%nat) then
      ({| primaryActions :=
            action <$> filter (shown ToggleMenuAction_ID) store';
          secondaryActions := _secondaryActions tb |},
       with_primaryActions store' tb)
    else if bool_decide
              (labeledWidth (withoutSentinel ToggleMenuAction_ID store)
               ≤ maxWidth) then
      (all, with_primaryActions (labeled true <$> store') tb)
    else if bool_decide (iconOnlyWidth n > maxWidth) then
      hiddenLayout ToggleMenuAction_ID n maxWidth
        (with_primaryActions store' tb)
    else
      let lastActionWithLabel :=
        separatorScan maxWidth n 0 (take n store) 0 (-1) in
      if bool_decide (lastActionWithLabel < 0)
      then hiddenLayout ToggleMenuAction_ID n maxWidth
             (with_primaryActions store' tb)
      else
        let v := (Z.to_nat (lastActionWithLabel + 1) `min` n)%nat in
        (all, with_primaryActions
                ((labeled true <$> take v store')
                 ++ (labeled false <$> drop v store')) tb).
Proof.
  intros store n Hsame. unfold dynamicLayout. simpl.
  rewrite (sameEntity_actionCount _ _ Hsame). fold n.
  rewrite (sameEntity_labeledWidth _ _
             (sameEntity_withoutSentinel _ _ Hsame)).
  rewrite (sameEntity_separatorScan _ _ _ _ _ _ _
             (Forall2_take _ _ _ n Hsame)).
  rewrite (sameEntity_action _ _ Hsame). done.
Qed.

Lemma dynamicLayout_idempotent maxWidth tb :
  dynamicLayout ToggleMenuAction_ID maxWidth
    (dynamicLayout ToggleMenuAction_ID maxWidth tb).2
  = dynamicLayout ToggleMenuAction_ID maxWidth tb.
Proof.
  pose proof (actionCount_le ToggleMenuAction_ID (_primaryActions tb)) as Hn.
  pose proof (dynamicLayout_sameEntity maxWidth tb) as Hunfold.
  pose proof (hiddenLayout_idempotent
                (actionCount ToggleMenuAction_ID (_primaryActions tb))
                maxWidth tb Hn) as Hhidden.
  pose proof (Hunfold (_primaryActions tb)) as Hself.
  rewrite with_primaryActions_id in Hself.
  specialize (Hself ltac:(by apply Forall_Forall2_diag, Forall_true)).
  simpl in Hunfold, Hself.
  set (store := _primaryActions tb) in *.
  set (n := actionCount ToggleMenuAction_ID store) in *.
  destruct (bool_decide (n = 0%nat)).
  { rewrite Hself. exact Hself. }
  destruct (bool_decide (labeledWidth _ ≤ maxWidth)).
  { rewrite Hself. simpl. rewrite Hunfold.
    - by rewrite <- list_fmap_compose.
    - apply Forall2_fmap_l, Forall_Forall2_diag, Forall_true. done. }
  assert (dynamicLayout ToggleMenuAction_ID maxWidth
            (hiddenLayout ToggleMenuAction_ID n maxWidth tb).2
          = hiddenLayout ToggleMenuAction_ID n maxWidth
              (hiddenLayout ToggleMenuAction_ID n maxWidth tb).2
          → dynamicLayout ToggleMenuAction_ID maxWidth
              (hiddenLayout ToggleMenuAction_ID n maxWidth tb).2
            = hiddenLayout ToggleMenuAction_ID n maxWidth tb) as Hvia.
  { intros ->. exact Hhidden. }
  pose proof (Hunfold _ (sameEntity_hiddenState
                           (hiddenCount maxWidth 0 (take n store)) store))
    as Hhid.
  destruct (bool_decide (iconOnlyWidth n > maxWidth)).
  { rewrite Hself. apply Hvia. exact Hhid. }
  destruct (bool_decide (separatorScan maxWidth n 0 (take n store) 0 (-1) < 0)).
  { rewrite Hself. apply Hvia. exact Hhid. }
  rewrite Hself. simpl. rewrite Hunfold by (by apply sameEntity_relabel).
  rewrite relabel_idempotent; [done| |done|done].
  lia.
Qed.

(** C7.  For every strategy and width: when [calculateActions] returns a
    partition and leaves the toolbar in the state [tb'], with the flags of
    the shared models assigned, the same call on [tb'] returns the same
    partition (and leaves [tb'] as it is). *)
Theorem calculateActions_idempotent s maxWidth tb p tb' :
  calculateActions ToggleMenuAction_ID s maxWidth tb = Some (p, tb') →
  calculateActions ToggleMenuAction_ID s maxWidth tb' = Some (p, tb').
Proof.
  intros Hcall.
  destruct (decide (_primaryActions tb = [])) as [Hnil|Hne].
  { by rewrite calculateActions_empty in Hcall. }
  rewrite calculateActions_eq in Hcall by done.
  injection Hcall as Hlayout.
  assert (tb' = (strategyLayout ToggleMenuAction_ID s maxWidth tb).2) as Htb'
    by (by rewrite Hlayout).
  assert (length (_primaryActions tb') = length (_primaryActions tb)) as Hlen.
  { rewrite Htb'. destruct s; simpl; unfold dynamicLayout;
      repeat case_bool_decide; simpl;
      repeat (rewrite length_app || rewrite length_fmap
              || rewrite length_take || rewrite length_drop); lia. }
  rewrite calculateActions_eq
    by (destruct (_primaryActions tb'), (_primaryActions tb); done).
  subst tb'.
  assert (strategyLayout ToggleMenuAction_ID s maxWidth
            (strategyLayout ToggleMenuAction_ID s maxWidth tb).2
          = strategyLayout ToggleMenuAction_ID s maxWidth tb) as ->.
  { destruct s;
      [apply fixedLayout_idempotent | apply fixedLayout_idempotent
      | apply dynamicLayout_idempotent]. }
  by f_equal.
Qed.

End StrategyProperties.

(** * The properties on concrete toolbars *)

(** The scenario of five actions at width 300: everything is shown with
    its label. *)
Lemma dynamic_all_labels_fit_witness :
  let tb := toolbarOf fiveActions [configureAction] in
  withoutSentinel toggleMore (_primaryActions tb) ≠ []
  ∧ labeledWidth (withoutSentinel toggleMore (_primaryActions tb)) ≤ 300
  ∧ ∃ p tb',
      calculateActions toggleMore DynamicLabelStrategy 300 tb = Some (p, tb')
      ∧ primaryActions p = action <$> fiveActions
      ∧ secondaryActions p = [configureAction].
Proof.
  intros tb.
  assert (withoutSentinel toggleMore (_primaryActions tb) ≠ []) as H1
    by (vm_compute; discriminate).
  assert (labeledWidth (withoutSentinel toggleMore (_primaryActions tb)) ≤ 300)
    as H2 by (vm_compute; discriminate).
  split; [exact H1|]. split; [exact H2|].
  destruct (dynamic_all_labels_fit toggleMore 300 tb H1 H2)
    as (p & tb' & Hcall & _ & _ & _ & Hp & Hs & _).
  exists p, tb'. split; [exact Hcall|]. split; [|exact Hs].
  rewrite Hp. vm_compute. reflexivity.
Defined.

(** The same actions followed by the sentinel, at width 50. *)
Lemma toggle_more_excluded_witness :
  let tb := toolbarOf (fiveActions ++ [toggleMoreModel]) [configureAction] in
  last (_primaryActions tb) = Some toggleMoreModel
  ∧ id (action toggleMoreModel) = toggleMore
  ∧ (action toggleMoreModel ∉ _secondaryActions tb)
  ∧ ∃ p tb',
      calculateActions toggleMore DynamicLabelStrategy 50 tb = Some (p, tb')
      ∧ (action toggleMoreModel ∉ primaryActions p)
      ∧ (action toggleMoreModel ∉ secondaryActions p).
Proof.
  intros tb.
  assert (action toggleMoreModel ∉ _secondaryActions tb) as H3
    by (apply (bool_decide_unpack _); vm_compute; exact I).
  split; [reflexivity|]. split; [reflexivity|]. split; [exact H3|].
  destruct (toggle_more_excluded toggleMore DynamicLabelStrategy 50 tb
              toggleMoreModel eq_refl eq_refl H3)
    as (p & tb' & Hcall & Hp & Hs & _).
  exists p, tb'. split; [exact Hcall|]. split; [exact Hp|exact Hs].
Defined.

(** A markdown action between two others at width 21: the one action
    before it fits as an icon, so the walk keeps the first action and the
    markdown action, and stops at the third; the running total is that of
    one action, and only the first is shown. *)
Lemma markdown_walked_but_invisible_witness :
  let tb :=
    toolbarOf [ model "notebook.cell.insertCodeCellBelow" MenuItemAction 40;
                model insertMarkdownCellBelow MenuItemAction 50;
                model "notebook.execute" MenuItemAction 60 ] [] in
  ∃ size_ p tb',
    hiddenLoop
      (forEach (set_renderLabel false) (refs (_primaryActions tb))
         (_primaryActions tb))
      21 (seq 0 3) (seq 0 3) 0 [] = Some ([0; 1]%nat, size_)
    ∧ _calcuateWithAlllabelsHidden toggleMore (seq 0 3) 21 tb = Some (p, tb')
    ∧ size_ = ACTION_PADDING + ICON_ONLY_ACTION_WIDTH
    ∧ ¬ (size_ + ICON_ONLY_ACTION_WIDTH ≤ 21)
    ∧ visible <$> _primaryActions tb' = [true; false; false]
    ∧ Forall (λ a, id a ≠ insertMarkdownCellBelow) (primaryActions p)
    ∧ iconOnlyWidth 1 ≤ 21
    ∧ (1%nat ∈ [0; 1]%nat).
Proof.
  intros tb.
  destruct (markdown_walked_but_invisible toggleMore 21 tb)
    as (j & size_ & p & tb' & Hloop & Hcall & _ & Hstop & _ & _ & Hprimary
        & Hreach).
  assert (j = 2%nat ∧ size_ = ACTION_PADDING + ICON_ONLY_ACTION_WIDTH)
    as [-> ->].
  { vm_compute in Hloop. injection Hloop as Hj <-.
    split; [|reflexivity]. destruct j as [|[|[|j]]]; try discriminate Hj.
    reflexivity. }
  exists (ACTION_PADDING + ICON_ONLY_ACTION_WIDTH), p, tb'.
  assert (iconOnlyWidth 1 ≤ 21) as Hfits by (vm_compute; discriminate).
  split; [exact Hloop|]. split; [exact Hcall|]. split; [reflexivity|].
  split; [|split; [|split; [exact Hprimary|split; [exact Hfits|]]]].
  - destruct (Hstop ltac:(vm_compute; lia)) as (_ & _ & _ & Hfull).
    exact Hfull.
  - vm_compute in Hcall. injection Hcall as _ <-. reflexivity.
  - apply (Hreach 1%nat (model insertMarkdownCellBelow MenuItemAction 50)
             ltac:(vm_compute; lia) eq_refl eq_refl).
    intros _. exact Hfits.
Defined.

(** The markdown action behind one other action at width 0: the walk
    stops at the first action, which does not fit, and the markdown action
    is not pushed.  It is invisible all the same, as the first action is,
    and nothing is counted. *)
Lemma markdown_not_reached :
  let tb :=
    toolbarOf [ model "notebook.execute" MenuItemAction 60;
                model insertMarkdownCellBelow MenuItemAction 50 ] [] in
  hiddenLoop
    (forEach (set_renderLabel false) (refs (_primaryActions tb))
       (_primaryActions tb))
    0 (seq 0 2) (seq 0 2) 0 [] = Some ([], 0)
  ∧ (1%nat ∉ ([] : list nat))
  ∧ ¬ (iconOnlyWidth 1 ≤ 0)
  ∧ fst <$> _calcuateWithAlllabelsHidden toggleMore (seq 0 2) 0 tb
    = Some {| primaryActions := []; secondaryActions := [] |}
  ∧ (λ r, visible <$> _primaryActions r.2)
      <$> _calcuateWithAlllabelsHidden toggleMore (seq 0 2) 0 tb
    = Some [false; false].
Proof.
  intros tb. split; [reflexivity|]. split; [apply not_elem_of_nil|].
  split; [vm_compute; intros Hle; by apply Hle|]. split; reflexivity.
Qed.

(** C3.  At width 50 the five actions take the full-degrade path, which
    keeps two of them.  The claim has the three that do not fit in front of
    the pre-existing secondary action; the source returns the pre-existing
    action alone, and the three are in neither output. *)
Theorem degrade_drops_overflow :
  let tb := toolbarOf fiveActions [configureAction] in
  fst <$> calculateActions toggleMore DynamicLabelStrategy 50 tb
  = Some {| primaryActions := action <$> take 2 fiveActions;
            secondaryActions := [configureAction] |}
  ∧ calculateActions toggleMore DynamicLabelStrategy 50 tb
    = _calcuateWithAlllabelsHidden toggleMore (seq 0 5) 50 tb
  ∧ (action <$> drop 2 fiveActions) ++ [configureAction] ≠ [configureAction].
Proof. repeat split. discriminate. Qed.



(** The five actions at widths 150 and 50. *)
Lemma primary_count_monotone_witness :
  let tb := toolbarOf fiveActions [] in
  _primaryActions tb ≠ []
  ∧ 50 ≤ 150
  ∧ ∃ p1 p2,
      fst <$> calculateActions toggleMore DynamicLabelStrategy 150 tb = Some p1
      ∧ fst <$> calculateActions toggleMore DynamicLabelStrategy 50 tb = Some p2
      ∧ (length (primaryActions p2) ≤ length (primaryActions p1))%nat.
Proof.
  intros tb.
  assert (_primaryActions tb ≠ []) as H1 by (vm_compute; discriminate).
  assert (50 ≤ 150) as H2 by (vm_compute; discriminate).
  split; [exact H1|]. split; [exact H2|].
  destruct (primary_count_monotone toggleMore DynamicLabelStrategy 150 50 tb
              H1 H2) as (p1 & tb1 & p2 & tb2 & Hc1 & Hc2 & Hle).
  exists p1, p2. rewrite Hc1, Hc2. split; [reflexivity|].
  split; [reflexivity|exact Hle].
Defined.

(** Two calls in a row at width 50. *)
Lemma calculateActions_idempotent_witness :
  let tb := toolbarOf fiveActions [configureAction] in
  ∃ p tb',
    calculateActions toggleMore DynamicLabelStrategy 50 tb = Some (p, tb')
    ∧ tb' ≠ tb
    ∧ calculateActions toggleMore DynamicLabelStrategy 50 tb' = Some (p, tb').
Proof.
  intros tb.
  destruct (calculateActions toggleMore DynamicLabelStrategy 50 tb)
    as [[p tb']|] eqn:Hcall; [|vm_compute in Hcall; discriminate Hcall].
  exists p, tb'. split; [reflexivity|]. split.
  - vm_compute in Hcall. injection Hcall as _ <-. discriminate.
  - exact (calculateActions_idempotent toggleMore DynamicLabelStrategy 50 tb
             p tb' Hcall).
Defined.

(** An action whose model asks for a label: the labelless strategy gives
    it the plain view, and the kernel picker its own. *)
Lemma labelless_never_labels_witness :
  let tb := toolbarOf fiveActions [] in
  let execute := {| id := "notebook.execute"; class := MenuItemAction |} in
  let kernel := {| id := selectKernel; class := MenuItemAction |} in
  id execute ≠ selectKernel
  ∧ rendersLabel tb execute = true
  ∧ actionProvider selectKernel FixedLabellessStrategy tb execute
    = MenuEntryActionViewItem
  ∧ actionProvider selectKernel FixedLabellessStrategy tb kernel
    = NotebookKernelActionViewItem.
Proof.
  intros tb execute kernel.
  assert (id execute ≠ selectKernel) as H1 by (vm_compute; discriminate).
  destruct (labelless_never_labels selectKernel tb execute)
    as (_ & _ & Hplain).
  destruct (labelless_never_labels selectKernel tb kernel)
    as (_ & Hkernel & _).
  split; [exact H1|]. split; [reflexivity|].
  split; [exact (Hplain H1)|exact (Hkernel eq_refl)].
Defined.

(** ** NotebookStatusBarService *)

Lemma Promise_all_Returns {A} (l : list A) :
  Promise_all (Returns <$> l) = Returns l.
Proof. induction l as [|a l IH]; [done|]. rewrite fmap_cons. cbn. by rewrite IH. Qed.

Lemma mapEff_itemsOf docUri token ps σ :
  mapEff (itemsOf docUri token) ps σ
  = (Returns <$> (slotOf docUri token <$> ps),
     {| invoked := invoked σ ++ ((λ p, (p, docUri, token)) <$> ps);
        unexpected := unexpected σ ++ concat (errorsOf docUri token <$> ps) |}).
Proof.
  revert σ. induction ps as [|p ps IH]; intros σ.
  - simpl. unfold ret. rewrite !app_nil_r. by destruct σ.
  - simpl. unfold bind at 1. unfold itemsOf at 1, bind at 1, call, slotOf at 1,
      errorsOf at 1.
    destruct (provideStatusBarItems p docUri token) as [[l|]|e]; simpl;
      unfold bind; rewrite IH; simpl; unfold ret;
      by rewrite <- ?app_assoc.
Qed.

Lemma getStatusBarItemsForDocument_eq svc docUri viewType_ token σ :
  let providers := filter (consulted viewType_) (_providers svc) in
  getStatusBarItemsForDocument svc docUri viewType_ token σ
  = (Returns (slotOf docUri token <$> providers),
     {| invoked := invoked σ ++ ((λ p, (p, docUri, token)) <$> providers);
        unexpected :=
          unexpected σ ++ concat (errorsOf docUri token <$> providers) |}).
Proof.
  simpl. unfold getStatusBarItemsForDocument, bind.
  rewrite mapEff_itemsOf. unfold ret. by rewrite Promise_all_Returns.
Qed.

(** C9.  [getStatusBarItemsForDocument] never rejects, and its result has
    one entry per consulted provider, in their order: the list the
    provider resolved to, and [{ items: [] }] when the provider threw or
    resolved to nothing.  Replacing any registered provider by another one
    of the same view type, for instance by one that throws, changes no
    entry but that provider's own. *)
Theorem failing_provider_isolated svc docUri viewType_ token σ :
  let providers := filter (consulted viewType_) (_providers svc) in
  ∃ results,
    (getStatusBarItemsForDocument svc docUri viewType_ token σ).1
      = Returns results
    ∧ length results = length providers
    ∧ (∀ (i : nat) p,
         providers !! i = Some p →
         results !! i
         = Some match provideStatusBarItems p docUri token with
                | Returns (Some l) => l
                | Returns None | Throws _ => {| items := []; dispose := false |}
                end)
    ∧ (∀ before p after p',
         _providers svc = before ++ p :: after →
         viewType p' = viewType p →
         ∃ results',
           (getStatusBarItemsForDocument
              {| _providers := before ++ p' :: after |}
              docUri viewType_ token σ).1 = Returns results'
           ∧ length results' = length results
           ∧ ∀ j : nat,
               j ≠ length (filter (consulted viewType_) before) →
               results' !! j = results !! j).
Proof.
  intros providers. rewrite getStatusBarItemsForDocument_eq. simpl.
  fold providers. eexists. split; [done|].
  split; [by rewrite length_fmap|]. split.
  - intros i p Hp. rewrite list_lookup_fmap, Hp. done.
  - intros before p after p' Hsvc Hvt.
    rewrite getStatusBarItemsForDocument_eq. simpl.
    eexists. split; [done|].
    unfold providers. rewrite Hsvc, !filter_app, !filter_cons.
    assert (consulted viewType_ p' ↔ consulted viewType_ p) as Hiff
      by (unfold consulted; by rewrite Hvt).
    destruct (decide (consulted viewType_ p)) as [Hc|Hc].
    + rewrite decide_True by (by apply Hiff).
      split; [by rewrite !length_fmap, !length_app|].
      intros j Hj. rewrite !fmap_app, !fmap_cons.
      destruct (decide (j < length (filter (consulted viewType_) before))%nat).
      * by rewrite !lookup_app_l by (rewrite length_fmap; lia).
      * rewrite !lookup_app_r by (rewrite length_fmap; lia).
        rewrite !length_fmap.
        destruct (j - length (filter (consulted viewType_) before))%nat
          as [|k] eqn:Hk; [lia|done].
    + rewrite decide_False by (by rewrite Hiff). done.
Qed.

(** C10.  [getStatusBarItemsForDocument] calls, in the order of
    [_providers], exactly the providers whose view type is the document's
    or ['*']: every call it makes is to such a provider, and the entries
    of the result correspond one to one to these providers.
    [registerStatusBarItemProvider] appends to [_providers], so this is
    the order of registration. *)
Theorem providers_consulted_by_viewType svc docUri viewType_ token σ :
  let providers := filter (consulted viewType_) (_providers svc) in
  let run := getStatusBarItemsForDocument svc docUri viewType_ token σ in
  invoked run.2 = invoked σ ++ ((λ p, (p, docUri, token)) <$> providers)
  ∧ (∀ p d t,
       (p, d, t) ∈ drop (length (invoked σ)) (invoked run.2) →
       p ∈ _providers svc ∧ (viewType p = viewType_ ∨ viewType p = "*"))
  ∧ (∃ results,
       run.1 = Returns results
       ∧ Forall2 (λ p r, r = slotOf docUri token p) providers results)
  ∧ (∀ p, _providers (registerStatusBarItemProvider p svc)
          = _providers svc ++ [p]).
Proof.
  simpl. rewrite getStatusBarItemsForDocument_eq. simpl.
  split; [done|]. split; [|split; [|done]].
  - intros p d t. rewrite drop_app_length.
    intros Hin. apply list_elem_of_fmap_1 in Hin as (p0 & Heq & Hin).
    injection Heq as -> -> ->.
    apply list_elem_of_filter in Hin as [??]. done.
  - eexists. split; [done|].
    apply Forall2_fmap_r, Forall_Forall2_diag, Forall_true. done.
Qed.

Lemma registration_order ps :
  _providers (foldl (λ svc p, registerStatusBarItemProvider p svc)
                {| _providers := [] |} ps) = ps.
Proof.
  induction ps as [|p ps IH] using rev_ind; [done|].
  rewrite foldl_app. simpl. by rewrite IH.
Qed.

(** * The service on concrete providers *)

(** A provider that throws between two others: its slot is empty, the
    first provider's list is in place. *)
Lemma failing_provider_isolated_witness :
  filter (consulted "jupyter-notebook") (_providers threeProviders)
  = [jupyterProvider; failingProvider]
  ∧ ∃ results,
      (getStatusBarItemsForDocument threeProviders "file:///a.ipynb"
         "jupyter-notebook" notCancelled noEffects).1 = Returns results
      ∧ results !! 0%nat = Some kernelStatus
      ∧ results !! 1%nat = Some {| items := []; dispose := false |}.
Proof.
  split; [reflexivity|].
  destruct (failing_provider_isolated threeProviders "file:///a.ipynb"
              "jupyter-notebook" notCancelled noEffects)
    as (results & Hres & _ & Hslot & _).
  exists results. split; [exact Hres|].
  split; [exact (Hslot 0%nat jupyterProvider eq_refl)
         |exact (Hslot 1%nat failingProvider eq_refl)].
Defined.

(** Of three providers, the two whose view type is the document's or ['*']
    are called, in the order of their registration; the third is not. *)
Lemma providers_consulted_by_viewType_witness :
  let svc :=
    registerStatusBarItemProvider otherProvider
      (registerStatusBarItemProvider failingProvider
         (registerStatusBarItemProvider jupyterProvider
            {| _providers := [] |})) in
  let run :=
    getStatusBarItemsForDocument svc "file:///a.ipynb" "jupyter-notebook"
      notCancelled noEffects in
  invoked run.2
  = [ (jupyterProvider, "file:///a.ipynb", notCancelled);
      (failingProvider, "file:///a.ipynb", notCancelled) ]
  ∧ (∀ d t, (otherProvider, d, t) ∉ invoked run.2).
Proof.
  intros svc run.
  destruct (providers_consulted_by_viewType svc "file:///a.ipynb"
              "jupyter-notebook" notCancelled noEffects)
    as (Hinvoked & Honly & _ & _).
  split; [exact Hinvoked|].
  intros d t Hin. destruct (Honly otherProvider d t Hin) as [_ [Hvt|Hvt]];
    discriminate Hvt.
Defined.

(** * More properties of the toolbar *)

Section MoreStrategyProperties.

Variable ToggleMenuAction_ID : string.
Variable SELECT_KERNEL_ID : string.

Lemma calculateActions_Some s maxWidth tb p tb' :
  calculateActions ToggleMenuAction_ID s maxWidth tb = Some (p, tb') →
  _primaryActions tb ≠ []
  ∧ strategyLayout ToggleMenuAction_ID s maxWidth tb = (p, tb').
Proof.
  intros Hcall.
  destruct (decide (_primaryActions tb = [])) as [Hnil|Hne].
  { by rewrite calculateActions_empty in Hcall. }
  rewrite calculateActions_eq in Hcall by done. by injection Hcall.
Qed.

Lemma fitCount_take_le maxWidth store (n : nat) :
  (n ≤ length store)%nat →
  (fitCount maxWidth 0 (take n store) ≤ n)%nat.
Proof.
  intros Hn. etrans; [apply fitCount_le|]. rewrite length_take. lia.
Qed.

Lemma replicate_fmap_const {A B} (f : A → B) (b : B) (l : list A) :
  (∀ x, f x = b) → f <$> l = replicate (length l) b.
Proof.
  intros Hf. induction l as [|x l IH]; [done|].
  by rewrite fmap_cons, Hf, IH.
Qed.

(** X1.  [FixedLabelStrategy._calculateFixedActions] assigns nothing but
    [visible]: when it returns, the toolbar is the old one with new models,
    every model has the action, the size and the [renderLabel] it had, and
    [visible] is true on the first [k] models and false on all others, the
    sentinel included, for some [k] within the actions that are laid
    out. *)
Theorem fixed_assigns_only_visible maxWidth tb p tb' :
  _calculateFixedActions ToggleMenuAction_ID maxWidth tb = Some (p, tb') →
  let store := _primaryActions tb in
  let store' := _primaryActions tb' in
  tb' = with_primaryActions store' tb
  ∧ action <$> store' = action <$> store
  ∧ size <$> store' = size <$> store
  ∧ renderLabel <$> store' = renderLabel <$> store
  ∧ ∃ k : nat,
      (k ≤ actionCount ToggleMenuAction_ID store)%nat
      ∧ visible <$> store'
        = replicate k true ++ replicate (length store - k) false.
Proof.
  intros Hcall store store'.
  apply (calculateActions_Some FixedLabelStrategy) in Hcall as [Hne Hlayout].
  simpl in Hlayout. unfold fixedLayout in Hlayout.
  injection Hlayout as _ <-. unfold store'. simpl. fold store.
  set (k := fitCount maxWidth 0 (take (actionCount _ store) store)).
  pose proof (actionCount_le ToggleMenuAction_ID store) as Hn.
  pose proof (fitCount_take_le maxWidth store _ Hn) as Hk. fold k in Hk.
  split; [done|].
  rewrite !fmap_app, <- !list_fmap_compose.
  repeat split.
  - rewrite <- fmap_app. by rewrite take_drop.
  - rewrite <- fmap_app. by rewrite take_drop.
  - rewrite <- fmap_app. by rewrite take_drop.
  - exists k. split; [done|].
    rewrite (replicate_fmap_const _ true), (replicate_fmap_const _ false)
      by done.
    rewrite length_take, length_drop. f_equal. f_equal. lia.
Qed.

(** X2.  [_calculateFixedActions] loses no action: its primary output
    followed by what it puts in front of the pre-existing secondary actions
    is the primary list without the sentinel, in the original order. *)
Theorem fixed_loses_no_action maxWidth tb p tb' :
  _calculateFixedActions ToggleMenuAction_ID maxWidth tb = Some (p, tb') →
  ∃ overflow,
    secondaryActions p = overflow ++ _secondaryActions tb
    ∧ primaryActions p ++ overflow
      = filter (notToggle ToggleMenuAction_ID) (action <$> _primaryActions tb).
Proof.
  intros Hcall.
  apply (calculateActions_Some FixedLabelStrategy) in Hcall as [Hne Hlayout].
  simpl in Hlayout. unfold fixedLayout in Hlayout.
  injection Hlayout as <- _. simpl.
  eexists. split; [done|].
  by rewrite <- filter_app, <- fmap_app, take_drop.
Qed.

Lemma foldl_add_shift (l : list Z) (a : Z) :
  foldl Z.add a l = a + foldl Z.add 0 l.
Proof.
  revert a. induction l as [|x l IH]; intros a; simpl; [lia|].
  rewrite (IH (a + x)), (IH (0 + x)). lia.
Qed.

Lemma labeledWidth_cons m (l : list IActionModel) :
  l ≠ [] →
  labeledWidth (m :: l) = size m + ACTION_PADDING + labeledWidth l.
Proof.
  intros Hne. unfold labeledWidth, ACTION_PADDING.
  rewrite fmap_cons. simpl foldl.
  rewrite foldl_add_shift. destruct l; [done|]. simpl length. lia.
Qed.

Lemma labeledWidth_singleton m : labeledWidth [m] = size m.
Proof. unfold labeledWidth, ACTION_PADDING. simpl. lia. Qed.

(** What the loop of [_calculateFixedActions] keeps fits behind the width
    [sz] that is already taken, and the model after it does not. *)
Lemma fitCount_spec w sz (l : list IActionModel) :
  let k := fitCount w sz l in
  (k ≠ 0%nat → sz + labeledWidth (take k l) ≤ w)
  ∧ ((k < length l)%nat → w < sz + labeledWidth (take (S k) l)).
Proof.
  revert sz. induction l as [|m l IH]; intros sz; simpl; [lia|].
  case_bool_decide as Hfit.
  - destruct (IH (sz + (ACTION_PADDING + size m))) as [IH1 IH2].
    set (k := fitCount w (sz + (ACTION_PADDING + size m)) l) in *.
    split.
    + intros _. simpl take. destruct (decide (k = 0%nat)) as [Hk|Hk].
      * rewrite Hk. simpl. rewrite labeledWidth_singleton. lia.
      * rewrite labeledWidth_cons; [specialize (IH1 Hk); lia|].
        destruct l; [done|]. by destruct k.
    + intros Hlt. simpl take.
      rewrite labeledWidth_cons; [specialize (IH2 ltac:(lia)); lia|].
      destruct l; [simpl in Hlt; lia|done].
  - split; [done|]. intros _. simpl. rewrite labeledWidth_singleton. lia.
Qed.

(** X3.  The fit of [_calculateFixedActions] is greedy: the [k] models it
    leaves visible, with [ACTION_PADDING] between them, are at most
    [maxWidth] wide, and when it stops before the end of the actions, one
    more action would exceed [maxWidth]. *)
Theorem fixed_fit_is_greedy maxWidth tb p tb' :
  _calculateFixedActions ToggleMenuAction_ID maxWidth tb = Some (p, tb') →
  let store := _primaryActions tb in
  ∃ k : nat,
    visible <$> _primaryActions tb'
      = replicate k true ++ replicate (length store - k) false
    ∧ (k ≤ actionCount ToggleMenuAction_ID store)%nat
    ∧ (k ≠ 0%nat → labeledWidth (take k store) ≤ maxWidth)
    ∧ ((k < actionCount ToggleMenuAction_ID store)%nat →
       maxWidth < labeledWidth (take (S k) store)).
Proof.
  intros Hcall store.
  apply (calculateActions_Some FixedLabelStrategy) in Hcall as [Hne Hlayout].
  simpl in Hlayout. unfold fixedLayout in Hlayout.
  injection Hlayout as _ <-. simpl. fold store.
  set (n := actionCount ToggleMenuAction_ID store).
  pose proof (actionCount_le ToggleMenuAction_ID store) as Hn. fold n in Hn.
  pose proof (fitCount_take_le maxWidth store _ Hn) as Hk.
  destruct (fitCount_spec maxWidth 0 (take n store)) as [Hfit Hstop].
  set (k := fitCount maxWidth 0 (take n store)) in *.
  exists k. split; [|split; [done|split]].
  - rewrite fmap_app, <- !list_fmap_compose.
    rewrite (replicate_fmap_const _ true), (replicate_fmap_const _ false)
      by done.
    rewrite length_take, length_drop. f_equal. f_equal. lia.
  - intros Hk0. specialize (Hfit Hk0).
    rewrite take_take in Hfit.
    replace (k `min` n)%nat with k in Hfit by lia. lia.
  - intros Hlt. rewrite length_take in Hstop.
    specialize (Hstop ltac:(lia)). rewrite take_take in Hstop.
    replace (S k `min` n)%nat with (S k) in Hstop by lia. lia.
Qed.

Lemma filter_shown_invisible (l : list IActionModel) :
  Forall (λ m, visible m = false) l →
  filter (shown ToggleMenuAction_ID) l = [].
Proof.
  induction 1 as [|m l Hm _ IH]; [done|].
  rewrite filter_cons, decide_False; [done|].
  intros [Hv _]. congruence.
Qed.

(** X4.  For every strategy and width, the primary output agrees with the
    flags the call leaves on the shared models: it is the actions of the
    models with [visible = true], the sentinel left out, in order. *)
Theorem primary_output_is_the_visible_models s maxWidth tb p tb' :
  calculateActions ToggleMenuAction_ID s maxWidth tb = Some (p, tb') →
  primaryActions p
  = action <$> filter (shown ToggleMenuAction_ID) (_primaryActions tb').
Proof.
  intros Hcall. apply calculateActions_Some in Hcall as [Hne Hlayout].
  assert (∀ n, let l := hiddenLayout ToggleMenuAction_ID n maxWidth tb in
    primaryActions l.1
    = action <$> filter (shown ToggleMenuAction_ID) (_primaryActions l.2))
    as Hhidden.
  { intros n. simpl. rewrite filter_app.
    rewrite (filter_shown_invisible (set_visible false <$> _))
      by apply Forall_fmap_set_visible.
    rewrite app_nil_r, shown_unless_markdown.
    by rewrite <- fmap_take, <- list_fmap_compose. }
  replace p with (strategyLayout ToggleMenuAction_ID s maxWidth tb).1
    by (by rewrite Hlayout).
  replace tb' with (strategyLayout ToggleMenuAction_ID s maxWidth tb).2
    by (by rewrite Hlayout).
  clear Hlayout.
  assert (primaryActions (fixedLayout ToggleMenuAction_ID maxWidth tb).1
          = action <$> filter (shown ToggleMenuAction_ID)
                         (_primaryActions
                            (fixedLayout ToggleMenuAction_ID maxWidth tb).2))
    as Hfixed.
  { simpl. rewrite filter_app.
    rewrite (filter_shown_invisible (set_visible false <$> _))
      by apply Forall_fmap_set_visible.
    rewrite app_nil_r, shown_all_visible by apply Forall_fmap_set_visible.
    by rewrite action_set_visible. }
  destruct s; [exact Hfixed|exact Hfixed|].
  simpl strategyLayout. unfold dynamicLayout.
  repeat case_bool_decide; try apply Hhidden; simpl.
  - done.
  - by rewrite shown_all_visible, action_labeled
      by apply Forall_visible_labeled.
  - rewrite shown_all_visible
      by (apply Forall_app; split; apply Forall_visible_labeled).
    by rewrite fmap_app, !action_labeled, <- fmap_app, take_drop.
Qed.

(** X5.  [DynamicLabelStrategy.calculateActions] returns the pre-existing
    secondary actions as its secondary output at every width: none of its
    paths adds an action to them. *)
Theorem dynamic_adds_no_overflow maxWidth tb p tb' :
  calculateActions ToggleMenuAction_ID DynamicLabelStrategy maxWidth tb
    = Some (p, tb') →
  secondaryActions p = _secondaryActions tb.
Proof.
  intros Hcall. apply calculateActions_Some in Hcall as [Hne Hlayout].
  replace p with (dynamicLayout ToggleMenuAction_ID maxWidth tb).1
    by (simpl in Hlayout; by rewrite Hlayout).
  unfold dynamicLayout.
  repeat case_bool_decide; try apply (hiddenLayout_secondary _ maxWidth tb);
    done.
Qed.

(** *** The separator search *)

Lemma separatorScan_app w (n i : nat) (l1 l2 : list IActionModel) sum last :
  separatorScan w n i (l1 ++ l2) sum last
  = separatorScan w n (i + length l1) l2
      (foldl (λ w m, w + (size m + ACTION_PADDING)) sum l1)
      (separatorScan w n i l1 sum last).
Proof.
  revert i sum last.
  induction l1 as [|m l1 IH]; intros i sum last; simpl.
  { by rewrite Nat.add_0_r. }
  replace (i + S (length l1))%nat with (S i + length l1)%nat by lia.
  case_bool_decide; by rewrite IH.
Qed.

Lemma separatorScan_none w (n i : nat) (l : list IActionModel) sum last :
  (∀ (j : nat) m,
     l !! j = Some m → class (action m) = Separator →
     ¬ (foldl (λ w m, w + (size m + ACTION_PADDING)) sum (take (S j) l)
        + iconsWidth (n - (i + j + 1)) ≤ w)) →
  separatorScan w n i l sum last = last.
Proof.
  revert i sum last.
  induction l as [|m l IH]; intros i sum last Hnone; simpl; [done|].
  assert (separatorScan w n (S i) l (sum + (size m + ACTION_PADDING)) last
          = last) as Hrest.
  { apply IH. intros j m' Hj Hsep.
    specialize (Hnone (S j) m' Hj Hsep). simpl in Hnone.
    by replace (i + S j + 1)%nat with (S i + j + 1)%nat in Hnone by lia. }
  case_bool_decide as Hsep; [|done].
  rewrite bool_decide_eq_false_2; [done|].
  specialize (Hnone 0%nat m eq_refl Hsep). simpl in Hnone.
  by rewrite Nat.add_0_r in Hnone.
Qed.

Lemma separatorScan_at w (n r : nat) (l : list IActionModel) m :
  l !! r = Some m → class (action m) = Separator →
  paddedWidth (take (S r) l) + iconsWidth (n - S r) ≤ w →
  (∀ (r' : nat) m',
     (r < r')%nat → l !! r' = Some m' → class (action m') = Separator →
     ¬ (paddedWidth (take (S r') l) + iconsWidth (n - S r') ≤ w)) →
  separatorScan w n 0 l 0 (-1) = Z.of_nat r.
Proof.
  intros Hm Hsep Hfit Hlater.
  rewrite <- (take_drop r l) at 1. rewrite separatorScan_app.
  rewrite (drop_S _ _ _ Hm). simpl.
  apply lookup_lt_Some in Hm as Hr.
  rewrite length_take, Nat.min_l by lia.
  assert (foldl (λ w m, w + (size m + ACTION_PADDING)) 0 (take r l)
          + (size m + ACTION_PADDING) = paddedWidth (take (S r) l)) as Hsum.
  { unfold paddedWidth. rewrite (take_S_r _ _ _ Hm), foldl_app. done. }
  rewrite Hsum. rewrite (bool_decide_eq_true_2 _ Hsep).
  replace (r + 1)%nat with (S r) by lia. fold (iconsWidth (n - S r)).
  rewrite (bool_decide_eq_true_2 _ Hfit).
  apply separatorScan_none. intros j m' Hj Hsep' Hfit'.
  rewrite lookup_drop in Hj.
  apply (Hlater (S r + j)%nat m'); [lia|done|done|].
  replace (S (S r + j)) with (S r + S j)%nat by lia.
  rewrite <- take_take_drop. unfold paddedWidth. rewrite foldl_app.
  by replace (n - (S r + S j))%nat with (n - (S r + j + 1))%nat by lia.
Qed.

Lemma separatorScan_no_separator_fits w (n : nat) (l : list IActionModel) :
  (∀ (r : nat) m,
     l !! r = Some m → class (action m) = Separator →
     ¬ (paddedWidth (take (S r) l) + iconsWidth (n - S r) ≤ w)) →
  separatorScan w n 0 l 0 (-1) = -1.
Proof.
  intros Hnone. apply separatorScan_none. intros j m Hj Hsep.
  replace (0 + j + 1)%nat with (S j) by lia. exact (Hnone j m Hj Hsep).
Qed.

(** X6.  The partial-label layout of [DynamicLabelStrategy].  When the
    labels of all actions do not fit but their icons do, and [r] is the last
    separator for which the actions up to it with their labels (each with
    the padding behind it) and the icons of the actions after it fit, then
    every model ends visible, exactly the models up to index [r] keep
    [renderLabel], every action but the sentinel is primary and nothing is
    added to the secondary actions. *)
Theorem dynamic_labels_up_to_last_fitting_separator maxWidth tb (r : nat) m :
  let store := _primaryActions tb in
  let actions := withoutSentinel ToggleMenuAction_ID store in
  let n := length actions in
  maxWidth < labeledWidth actions →
  iconOnlyWidth n ≤ maxWidth →
  actions !! r = Some m → class (action m) = Separator →
  paddedWidth (take (S r) actions) + iconsWidth (n - S r) ≤ maxWidth →
  (∀ (r' : nat) m',
     (r < r')%nat → actions !! r' = Some m' →
     class (action m') = Separator →
     ¬ (paddedWidth (take (S r') actions) + iconsWidth (n - S r')
        ≤ maxWidth)) →
  ∃ p tb',
    calculateActions ToggleMenuAction_ID DynamicLabelStrategy maxWidth tb
      = Some (p, tb')
    ∧ tb' = with_primaryActions (_primaryActions tb') tb
    ∧ action <$> _primaryActions tb' = action <$> store
    ∧ size <$> _primaryActions tb' = size <$> store
    ∧ Forall (λ m, visible m = true) (_primaryActions tb')
    ∧ renderLabel <$> _primaryActions tb'
      = replicate (S r) true ++ replicate (length store - S r) false
    ∧ primaryActions p
      = filter (notToggle ToggleMenuAction_ID) (action <$> store)
    ∧ secondaryActions p = _secondaryActions tb.
Proof.
  intros store actions n Hwide Hicons Hm Hsep Hfit Hlater.
  assert (store ≠ []) as Hne.
  { intros Hnil. unfold actions in Hm. by rewrite Hnil in Hm. }
  assert (n = actionCount ToggleMenuAction_ID store) as Hn
    by apply length_withoutSentinel.
  pose proof (actionCount_le ToggleMenuAction_ID store) as Hle.
  apply lookup_lt_Some in Hm as Hr. fold n in Hr.
  rewrite calculateActions_eq by done.
  cbn [strategyLayout]. unfold dynamicLayout. cbv zeta.
  fold store. fold actions. rewrite <- Hn.
  rewrite bool_decide_eq_false_2 by lia.
  rewrite bool_decide_eq_false_2 by lia.
  rewrite bool_decide_eq_false_2 by lia.
  assert (take n store = actions) as Htake
    by (unfold actions, withoutSentinel; by rewrite <- Hn).
  rewrite Htake, (separatorScan_at _ _ r _ m) by done.
  rewrite bool_decide_eq_false_2 by lia.
  replace (Z.to_nat (Z.of_nat r + 1) `min` n)%nat with (S r) by lia.
  eexists _, _. split; [done|]. simpl.
  rewrite !fmap_app, <- !list_fmap_compose.
  repeat split.
  - rewrite <- fmap_app. by rewrite take_drop.
  - rewrite <- fmap_app. by rewrite take_drop.
  - apply Forall_app; split; apply Forall_fmap, Forall_true; done.
  - rewrite (replicate_fmap_const _ true), (replicate_fmap_const _ false)
      by done.
    rewrite length_take, length_drop.
    by replace (S r `min` length store)%nat with (S r) by lia.
Qed.

(** X7.  When the labels of all actions do not fit and either the icons
    alone do not fit or no separator qualifies, [DynamicLabelStrategy]
    returns what the full-degrade path returns. *)
Theorem dynamic_degrades_without_fitting_separator maxWidth tb :
  let store := _primaryActions tb in
  let actions := withoutSentinel ToggleMenuAction_ID store in
  let n := length actions in
  actions ≠ [] →
  maxWidth < labeledWidth actions →
  (maxWidth < iconOnlyWidth n
   ∨ ∀ (r : nat) m,
       actions !! r = Some m → class (action m) = Separator →
       ¬ (paddedWidth (take (S r) actions) + iconsWidth (n - S r)
          ≤ maxWidth)) →
  calculateActions ToggleMenuAction_ID DynamicLabelStrategy maxWidth tb
  = _calcuateWithAlllabelsHidden ToggleMenuAction_ID (seq 0 n) maxWidth tb.
Proof.
  intros store actions n Hne Hwide Hnone.
  assert (store ≠ []) as Hstore by (by eapply withoutSentinel_nonempty).
  assert (n = actionCount ToggleMenuAction_ID store) as Hn
    by apply length_withoutSentinel.
  pose proof (actionCount_le ToggleMenuAction_ID store) as Hle.
  rewrite _calcuateWithAlllabelsHidden_eq by (fold store; lia).
  rewrite calculateActions_eq by done.
  cbn [strategyLayout]. unfold dynamicLayout. cbv zeta.
  fold store. fold actions. rewrite <- Hn.
  rewrite bool_decide_eq_false_2
    by (unfold n; by destruct actions).
  rewrite bool_decide_eq_false_2 by lia.
  case_bool_decide; [done|].
  destruct Hnone as [Hicons|Hnone]; [lia|].
  assert (take n store = actions) as Htake
    by (unfold actions, withoutSentinel; by rewrite <- Hn).
  rewrite Htake, separatorScan_no_separator_fits by done.
  done.
Qed.

(** *** The full-degrade path keeps within the budget *)

Lemma hiddenCount_budget w sz (l : list IActionModel) :
  let c := length (filter (λ m, id (action m) ≠ insertMarkdownCellBelow)
                     (take (hiddenCount w sz l) l)) in
  c ≠ 0%nat → sz + iconOnlyWidth c ≤ w.
Proof.
  revert sz. induction l as [|m l IH]; intros sz; simpl; [done|].
  case_bool_decide as Hmd; [|case_bool_decide as Hfit]; simpl.
  - rewrite filter_cons, decide_False by (intros Hn; by apply Hn).
    apply IH.
  - rewrite filter_cons, decide_True by done. simpl length. intros _.
    specialize (IH (sz + (ACTION_PADDING + ICON_ONLY_ACTION_WIDTH))).
    simpl in IH.
    destruct (length (filter _ (take _ l))) as [|c'] eqn:Hc.
    + unfold iconOnlyWidth, ICON_ONLY_ACTION_WIDTH, ACTION_PADDING in *. lia.
    + specialize (IH ltac:(done)).
      unfold iconOnlyWidth, ICON_ONLY_ACTION_WIDTH, ACTION_PADDING in *. lia.
  - done.
Qed.

Lemma visible_count_unless_markdown (l : list IActionModel) :
  length (filter (λ m, visible m = true) (set_visible_unless_markdown <$> l))
  = length (filter (λ m, id (action m) ≠ insertMarkdownCellBelow) l).
Proof.
  induction l as [|m l IH]; [done|].
  rewrite fmap_cons, !filter_cons, visible_set_visible_unless_markdown.
  destruct (decide (id (action m) ≠ insertMarkdownCellBelow)) as [Hmd|Hmd].
  - rewrite decide_True by (by apply bool_decide_eq_true_2).
    simpl. by rewrite IH.
  - rewrite decide_False; [done|]. by rewrite bool_decide_eq_true.
Qed.

Lemma filter_visible_invisible (l : list IActionModel) :
  filter (λ m, visible m = true) (set_visible false <$> l) = [].
Proof.
  induction l as [|m l IH]; [done|].
  rewrite fmap_cons, filter_cons, decide_False; done.
Qed.

Lemma hiddenLayout_unlabeled n maxWidth tb :
  Forall (λ m, renderLabel m = false)
    (_primaryActions (hiddenLayout ToggleMenuAction_ID n maxWidth tb).2).
Proof.
  simpl. apply Forall_app; split; apply Forall_fmap;
    rewrite <- ?fmap_take, <- ?fmap_drop; apply Forall_fmap, Forall_true;
    intros m; simpl; [|done].
  unfold set_visible_unless_markdown. by case_bool_decide.
Qed.

(** X8.  The full-degrade path keeps within the budget: afterwards no
    model has [renderLabel], the primary output is no longer than the
    number of models left visible, and that many icons with
    [ACTION_PADDING] between them are at most [maxWidth] wide. *)
Theorem degrade_keeps_within_budget maxWidth tb :
  let store := _primaryActions tb in
  let n := actionCount ToggleMenuAction_ID store in
  ∃ p tb',
    _calcuateWithAlllabelsHidden ToggleMenuAction_ID (seq 0 n) maxWidth tb
      = Some (p, tb')
    ∧ Forall (λ m, renderLabel m = false) (_primaryActions tb')
    ∧ (length (primaryActions p)
       ≤ length (filter (λ m, visible m = true) (_primaryActions tb')))%nat
    ∧ (length (filter (λ m, visible m = true) (_primaryActions tb')) ≠ 0%nat →
       iconOnlyWidth
         (length (filter (λ m, visible m = true) (_primaryActions tb')))
       ≤ maxWidth).
Proof.
  intros store n.
  pose proof (actionCount_le ToggleMenuAction_ID store) as Hn. fold n in Hn.
  rewrite _calcuateWithAlllabelsHidden_eq by done.
  eexists _, _. split; [done|]. unfold hiddenLayout. fold store. simpl.
  set (j := hiddenCount maxWidth 0 (take n store)).
  assert (j ≤ n)%nat as Hj.
  { etrans; [apply hiddenCount_le|]. rewrite length_take. lia. }
  assert (length (filter (λ m, visible m = true)
                    ((set_visible_unless_markdown
                        <$> take j (set_renderLabel false <$> store))
                     ++ (set_visible false
                           <$> drop j (set_renderLabel false <$> store))))
          = length (filter (λ m, id (action m) ≠ insertMarkdownCellBelow)
                      (take j store))) as Hcount.
  { rewrite filter_app, filter_visible_invisible, app_nil_r.
    rewrite visible_count_unless_markdown, <- fmap_take.
    clear. induction (take j store) as [|m l IH]; [done|].
    rewrite fmap_cons, !filter_cons. simpl.
    destruct (decide _); simpl; by rewrite IH. }
  rewrite Hcount. split; [|split].
  - apply (hiddenLayout_unlabeled n maxWidth tb).
  - rewrite <- (length_fmap action
                  (filter (λ m, id (action m) ≠ insertMarkdownCellBelow) _)).
    rewrite (fmap_filter action _ (λ a, id a ≠ insertMarkdownCellBelow))
      by (apply Forall_true; done).
    apply length_filter_impl. by intros a [? _].
  - intros Hc.
    pose proof (hiddenCount_budget maxWidth 0 (take n store)) as Hb.
    simpl in Hb. fold j in Hb. rewrite take_take in Hb.
    replace (j `min` n)%nat with j in Hb by lia.
    specialize (Hb Hc). lia.
Qed.

(** *** The view factory after a layout pass *)

Lemma rendersLabel_false tb a :
  Forall (λ m, renderLabel m = false) (_primaryActions tb) →
  rendersLabel tb a = false.
Proof.
  intros Hall. unfold rendersLabel.
  destruct (list_find _ _) as [[i m]|] eqn:Hfind; [|done].
  apply list_find_Some in Hfind as (Hm & _ & _).
  rewrite Forall_forall in Hall. apply Hall.
  by eapply list_elem_of_lookup_2.
Qed.

Lemma rendersLabel_true tb a :
  Forall (λ m, renderLabel m = true) (_primaryActions tb) →
  a ∈ action <$> _primaryActions tb →
  rendersLabel tb a = true.
Proof.
  intros Hall Hin. unfold rendersLabel.
  apply list_elem_of_fmap_1 in Hin as (m0 & -> & Hm0).
  destruct (list_find _ _) as [[i m]|] eqn:Hfind.
  - apply list_find_Some in Hfind as (Hm & _ & _).
    rewrite Forall_forall in Hall. apply Hall.
    by eapply list_elem_of_lookup_2.
  - apply list_find_None in Hfind. rewrite Forall_forall in Hfind.
    by destruct (Hfind m0 Hm0).
Qed.

(** X9.  After the full-degrade path, the view factory of
    [DynamicLabelStrategy] gives no action an [ActionViewWithLabel]. *)
Theorem degrade_renders_no_label maxWidth tb p tb' a :
  _calcuateWithAlllabelsHidden ToggleMenuAction_ID
    (seq 0 (actionCount ToggleMenuAction_ID (_primaryActions tb)))
    maxWidth tb = Some (p, tb') →
  actionProvider SELECT_KERNEL_ID DynamicLabelStrategy tb' a
  ≠ ActionViewWithLabel.
Proof.
  rewrite _calcuateWithAlllabelsHidden_eq by apply actionCount_le.
  intros [= _ <-].
  unfold actionProvider, menuItemView.
  rewrite rendersLabel_false by apply hiddenLayout_unlabeled.
  repeat case_bool_decide; done.
Qed.

Lemma labeled_view tb a :
  Forall (λ m, renderLabel m = true) (_primaryActions tb) →
  a ∈ action <$> _primaryActions tb →
  class a = MenuItemAction → id a ≠ SELECT_KERNEL_ID →
  actionProvider SELECT_KERNEL_ID FixedLabelStrategy tb a
    = ActionViewWithLabel
  ∧ actionProvider SELECT_KERNEL_ID DynamicLabelStrategy tb a
    = ActionViewWithLabel.
Proof.
  intros Hall Hin Hclass Hid. unfold actionProvider, menuItemView.
  rewrite (rendersLabel_true _ _ Hall Hin).
  rewrite (bool_decide_eq_false_2 _ Hid), (bool_decide_eq_true_2 _ Hclass).
  done.
Qed.

Lemma elem_of_filter_fmap {A} (P : A → Prop) `{!∀ x, Decision (P x)}
    (x : A) (l : list A) :
  x ∈ filter P l → x ∈ l.
Proof. intros Hx. by apply list_elem_of_filter in Hx as [_ ?]. Qed.

(** X10.  After [DynamicLabelStrategy] found that all labels fit, its view
    factory gives every primary action that is a [MenuItemAction], the
    kernel picker apart, an [ActionViewWithLabel]. *)
Theorem all_labels_render_labels maxWidth tb p tb' a :
  withoutSentinel ToggleMenuAction_ID (_primaryActions tb) ≠ [] →
  labeledWidth (withoutSentinel ToggleMenuAction_ID (_primaryActions tb))
    ≤ maxWidth →
  calculateActions ToggleMenuAction_ID DynamicLabelStrategy maxWidth tb
    = Some (p, tb') →
  a ∈ primaryActions p →
  class a = MenuItemAction → id a ≠ SELECT_KERNEL_ID →
  actionProvider SELECT_KERNEL_ID DynamicLabelStrategy tb' a
  = ActionViewWithLabel.
Proof.
  intros Hne Hfit Hcall Hin Hclass Hid.
  apply calculateActions_Some in Hcall as [_ Hlayout].
  cbn [strategyLayout] in Hlayout. unfold dynamicLayout in Hlayout.
  cbv zeta in Hlayout.
  rewrite bool_decide_eq_false_2 in Hlayout.
  2:{ rewrite <- length_withoutSentinel. by destruct (withoutSentinel _ _). }
  rewrite bool_decide_eq_true_2 in Hlayout by done.
  injection Hlayout as <- <-. simpl in Hin.
  apply labeled_view; [| |done|done]; simpl.
  - apply Forall_fmap, Forall_true. done.
  - rewrite action_labeled. by eapply elem_of_filter_fmap.
Qed.

(** X11.  When every model asks for its label, as after
    [_cacheItemSizes], a layout by [FixedLabelStrategy] at any width leaves
    it so: its view factory gives every primary action that is a
    [MenuItemAction], the kernel picker apart, an [ActionViewWithLabel]. *)
Theorem fixed_label_renders_labels maxWidth tb p tb' a :
  Forall (λ m, renderLabel m = true) (_primaryActions tb) →
  _calculateFixedActions ToggleMenuAction_ID maxWidth tb = Some (p, tb') →
  a ∈ primaryActions p →
  class a = MenuItemAction → id a ≠ SELECT_KERNEL_ID →
  actionProvider SELECT_KERNEL_ID FixedLabelStrategy tb' a
  = ActionViewWithLabel.
Proof.
  intros Hall Hcall Hin Hclass Hid.
  apply (calculateActions_Some FixedLabelStrategy) in Hcall as [_ Hlayout].
  cbn [strategyLayout] in Hlayout. unfold fixedLayout in Hlayout.
  injection Hlayout as <- <-. simpl in Hin.
  apply labeled_view; [| |done|done]; simpl.
  - rewrite <- (take_drop (fitCount maxWidth 0
                             (take (actionCount ToggleMenuAction_ID
                                      (_primaryActions tb))
                                (_primaryActions tb)))
                  (_primaryActions tb)) in Hall.
    apply Forall_app in Hall as [H1 H2].
    apply Forall_app; split; apply Forall_fmap;
      (eapply Forall_impl; [eassumption|]); done.
  - rewrite fmap_app, !action_set_visible, <- fmap_app, take_drop.
    apply elem_of_filter_fmap in Hin.
    rewrite fmap_take in Hin. by apply (subseteq_take _ _ _ Hin).
Qed.

(** X12.  For each of the five values of the setting, the view factory the
    container builds itself (for the right toolbar, and for the left one
    after the setting changed) picks the view that the [actionProvider] of
    the strategy [_updateStrategy] installs for that value picks. *)
Theorem toolbarActionProvider_agrees value tb a :
  let _renderLabel := _convertConfiguration value in
  toolbarActionProvider SELECT_KERNEL_ID _renderLabel tb a
  = actionProvider SELECT_KERNEL_ID
      (_strategy (_updateStrategy _renderLabel tb)) tb a.
Proof.
  unfold toolbarActionProvider, actionProvider.
  destruct value; simpl; repeat case_bool_decide; done.
Qed.

(** *** The container *)

Lemma _canBeVisible_paddedWidth width_ tb :
  _canBeVisible width_ tb = bool_decide (paddedWidth (_primaryActions tb) ≤ width_).
Proof. done. Qed.

(** X13.  The fast path of [_computeSizes]: with both toolbars, a
    non-negative dimension and a non-empty cache, when [_canBeVisible]
    holds for the width left of the kernel picker, every model is made
    visible with its label and [setActions] gets every action but the
    sentinel and the secondary actions, whichever strategy is installed. *)
Theorem computeSizes_fast_path tb toolbar rightToolbar dimension :
  _notebookLeftToolbar tb = Some toolbar →
  _notebookRightToolbar tb = Some rightToolbar →
  _dimension tb = Some dimension →
  0 ≤ height dimension → 0 ≤ width dimension →
  _primaryActions tb ≠ [] →
  _canBeVisible
    (width dimension - (firstItemWidth rightToolbar + ACTION_PADDING)
     - ACTION_PADDING) tb = true →
  ∃ p tb',
    _computeSizes ToggleMenuAction_ID tb = Some (Some p, tb')
    ∧ tb' = with_primaryActions (_primaryActions tb') tb
    ∧ action <$> _primaryActions tb' = action <$> _primaryActions tb
    ∧ size <$> _primaryActions tb' = size <$> _primaryActions tb
    ∧ Forall (λ m, visible m = true ∧ renderLabel m = true)
        (_primaryActions tb')
    ∧ primaryActions p
      = filter (notToggle ToggleMenuAction_ID) (action <$> _primaryActions tb)
    ∧ secondaryActions p = _secondaryActions tb.
Proof.
  intros Hleft Hright Hdim Hh Hw Hne Hfits.
  unfold _computeSizes. rewrite Hleft, Hright, Hdim.
  rewrite bool_decide_eq_true_2 by (split; lia).
  rewrite (bool_decide_eq_false_2 (_ ∧ _))
    by (intros [Hlen _]; by destruct (_primaryActions tb)).
  rewrite bool_decide_eq_false_2 by (by destruct (_primaryActions tb)).
  rewrite Hfits, forEach_refs, derefs_refs. simpl.
  eexists _, _. split; [done|]. simpl.
  rewrite <- !list_fmap_compose. repeat split.
  - apply Forall_fmap, Forall_true. done.
  - rewrite (fmap_filter action _ (notToggle ToggleMenuAction_ID))
      by (apply Forall_true; done).
    by rewrite <- list_fmap_compose.
Qed.

(** X14.  [_computeSizes] measures lazily.  With an empty cache and no
    rendered item it makes no call and changes nothing; with an empty cache
    and rendered items it does what it does once [_cacheItemSizes] has
    filled the cache, which holds one visible, labeled model per rendered
    item with its action and width. *)
Theorem computeSizes_caches_first tb toolbar rightToolbar dimension :
  _notebookLeftToolbar tb = Some toolbar →
  _notebookRightToolbar tb = Some rightToolbar →
  _dimension tb = Some dimension →
  0 ≤ height dimension → 0 ≤ width dimension →
  _primaryActions tb = [] →
  (toolbar = [] → _computeSizes ToggleMenuAction_ID tb = Some (None, tb))
  ∧ (toolbar ≠ [] →
     _computeSizes ToggleMenuAction_ID tb
     = _computeSizes ToggleMenuAction_ID (_cacheItemSizes toolbar tb)
     ∧ _primaryActions (_cacheItemSizes toolbar tb)
       = (λ item, {| action := item.1; size := item.2;
                     visible := true; renderLabel := true |}) <$> toolbar).
Proof.
  intros Hleft Hright Hdim Hh Hw Hnil. split.
  - intros ->. unfold _computeSizes. rewrite Hleft, Hright, Hdim, Hnil.
    rewrite bool_decide_eq_true_2 by (split; lia).
    rewrite (bool_decide_eq_false_2 (_ ∧ _)) by (by intros [_ ?]).
    rewrite Hnil. done.
  - intros Hne. split; [|done].
    unfold _computeSizes at 2. simpl.
    rewrite Hleft, Hright, Hdim.
    rewrite bool_decide_eq_true_2 by (split; lia).
    rewrite (bool_decide_eq_false_2 (_ ∧ _))
      by (rewrite length_fmap; intros [Hlen _]; by destruct toolbar).
    unfold _computeSizes. rewrite Hleft, Hright, Hdim, Hnil.
    rewrite bool_decide_eq_true_2 by (split; lia).
    rewrite (bool_decide_eq_true_2 (_ ∧ _))
      by (split; [done|by destruct toolbar]).
    done.
Qed.

Lemma separatorScan_found w (n i : nat) (l : list IActionModel) sum last :
  separatorScan w n i l sum last = last
  ∨ ∃ (j : nat) m,
      l !! j = Some m
      ∧ separatorScan w n i l sum last = Z.of_nat (i + j)
      ∧ foldl (λ w m, w + (size m + ACTION_PADDING)) sum (take (S j) l)
        + iconsWidth (n - (i + j + 1)) ≤ w.
Proof.
  revert i sum last.
  induction l as [|m l IH]; intros i sum last; simpl; [by left|].
  assert (∀ last',
    last' = last
    ∨ (last' = Z.of_nat i
       ∧ sum + (size m + ACTION_PADDING) + iconsWidth (n - (i + 1)) ≤ w) →
    separatorScan w n (S i) l (sum + (size m + ACTION_PADDING)) last' = last
    ∨ ∃ (j : nat) m0,
        (m :: l) !! j = Some m0
        ∧ separatorScan w n (S i) l (sum + (size m + ACTION_PADDING)) last'
          = Z.of_nat (i + j)
        ∧ foldl (λ w m, w + (size m + ACTION_PADDING)) sum
            (take (S j) (m :: l))
          + iconsWidth (n - (i + j + 1)) ≤ w) as Hstep.
  { intros last' Hlast'.
    destruct (IH (S i) (sum + (size m + ACTION_PADDING)) last')
      as [Heq|(j & m0 & Hj & Heq & Hfit)].
    - rewrite Heq. destruct Hlast' as [->|[-> Hfit]]; [by left|].
      right. exists 0%nat, m. rewrite Nat.add_0_r. done.
    - right. exists (S j), m0. split; [done|].
      replace (i + S j)%nat with (S i + j)%nat by lia. done. }
  case_bool_decide as Hsep; [|apply Hstep; by left].
  apply Hstep. case_bool_decide as Hfit; [right|by left].
  split; [done|]. exact Hfit.
Qed.

Lemma paddedWidth_labeledWidth (l : list IActionModel) :
  l ≠ [] → paddedWidth l = labeledWidth l + ACTION_PADDING.
Proof.
  intros Hne.
  assert (∀ a, foldl (λ w m, w + (size m + ACTION_PADDING)) a l
               = a + foldl Z.add 0 (size <$> l)
                 + Z.of_nat (length l) * ACTION_PADDING) as Hsum.
  { clear Hne. induction l as [|m l IH]; intros a; [simpl; lia|].
    rewrite fmap_cons. simpl foldl.
    rewrite IH, (foldl_add_shift _ (0 + size m)). simpl length. lia. }
  unfold paddedWidth, labeledWidth. rewrite Hsum. lia.
Qed.

(** X15.  When the fast path of [_computeSizes] fails on a list that does
    not end with the sentinel, the container hands the width less the
    kernel picker, the toggle-more affordance and the margin to the
    strategy, and whichever strategy it is hides an action or a label: the
    call never returns with every model visible and labeled. *)
Theorem computeSizes_delegation_reduces tb toolbar rightToolbar dimension
    lastModel :
  _notebookLeftToolbar tb = Some toolbar →
  _notebookRightToolbar tb = Some rightToolbar →
  _dimension tb = Some dimension →
  0 ≤ height dimension → 0 ≤ width dimension →
  last (_primaryActions tb) = Some lastModel →
  id (action lastModel) ≠ ToggleMenuAction_ID →
  _canBeVisible
    (width dimension - (firstItemWidth rightToolbar + ACTION_PADDING)
     - ACTION_PADDING) tb = false →
  ∃ p tb',
    _computeSizes ToggleMenuAction_ID tb = Some (Some p, tb')
    ∧ calculateActions ToggleMenuAction_ID (_strategy tb)
        (width dimension - (firstItemWidth rightToolbar + ACTION_PADDING)
         - (TOGGLE_MORE_ACTION_WIDTH + ACTION_PADDING) - ACTION_PADDING) tb
      = Some (p, tb')
    ∧ Exists (λ m, visible m = false ∨ renderLabel m = false)
        (_primaryActions tb').
Proof.
  intros Hleft Hright Hdim Hh Hw Hlast Hid Hwide.
  set (store := _primaryActions tb) in *.
  assert (store ≠ []) as Hne by (intros Hnil; by rewrite Hnil in Hlast).
  set (budget := width dimension - (firstItemWidth rightToolbar + ACTION_PADDING)
                 - (TOGGLE_MORE_ACTION_WIDTH + ACTION_PADDING)
                 - ACTION_PADDING).
  assert (budget < labeledWidth store) as Hbudget.
  { rewrite _canBeVisible_paddedWidth in Hwide.
    apply bool_decide_eq_false_1 in Hwide. fold store in Hwide.
    rewrite paddedWidth_labeledWidth in Hwide by done.
    unfold budget, TOGGLE_MORE_ACTION_WIDTH, ACTION_PADDING in *. lia. }
  assert (actionCount ToggleMenuAction_ID store = length store) as Hn.
  { unfold actionCount. rewrite Hlast.
    rewrite bool_decide_eq_false_2 by done. lia. }
  assert (withoutSentinel ToggleMenuAction_ID store = store) as Hactions.
  { unfold withoutSentinel. rewrite Hn. by apply take_ge. }
  assert (length store ≠ 0%nat) as Hlen by (by destruct store).
  unfold _computeSizes. rewrite Hleft, Hright, Hdim.
  rewrite bool_decide_eq_true_2 by (split; lia).
  rewrite (bool_decide_eq_false_2 (_ ∧ _)) by (by intros [? _]).
  rewrite bool_decide_eq_false_2 by done.
  rewrite Hwide. fold budget.
  rewrite calculateActions_eq by done. simpl.
  destruct (strategyLayout ToggleMenuAction_ID (_strategy tb) budget tb)
    as [p tb'] eqn:Hlayout.
  exists p, tb'. split; [done|]. split; [done|].
  replace tb' with (strategyLayout ToggleMenuAction_ID (_strategy tb) budget tb).2
    by (by rewrite Hlayout).
  clear Hlayout p tb'.
  assert (Exists (λ m, visible m = false ∨ renderLabel m = false)
            (_primaryActions (fixedLayout ToggleMenuAction_ID budget tb).2))
    as Hfixed.
  { simpl. fold store. rewrite Hn, (take_ge store (length store)) by done.
    destruct (fitCount_spec budget 0 store) as [Hfit _].
    pose proof (fitCount_le budget 0 store) as Hk.
    set (k := fitCount budget 0 store) in *.
    assert (k < length store)%nat as Hlt.
    { destruct (decide (k = length store)) as [Hall|]; [|lia].
      rewrite Hall, take_ge in Hfit by done.
      specialize (Hfit Hlen). lia. }
    apply Exists_app. right.
    destruct (lookup_lt_is_Some_2 store k Hlt) as [m Hm].
    rewrite (drop_S _ _ _ Hm), fmap_cons. apply Exists_cons_hd. by left. }
  destruct (_strategy tb); [exact Hfixed|exact Hfixed|].
  cbn [strategyLayout]. unfold dynamicLayout. cbv zeta. fold store.
  rewrite Hn, Hactions, (take_ge store (length store)) by done.
  rewrite bool_decide_eq_false_2 by done.
  rewrite bool_decide_eq_false_2 by lia.
  assert (Exists (λ m, visible m = false ∨ renderLabel m = false)
            (_primaryActions
               (hiddenLayout ToggleMenuAction_ID (length store) budget tb).2))
    as Hhidden.
  { pose proof (hiddenLayout_unlabeled (length store) budget tb) as Hall.
    destruct (_primaryActions (hiddenLayout _ _ _ _).2) as [|m l] eqn:Hst.
    - apply (f_equal length) in Hst. simpl in Hst. fold store in Hst.
      rewrite length_app, !length_fmap, length_take, length_drop,
        length_fmap in Hst. lia.
    - apply Exists_cons_hd. right. by inversion Hall. }
  case_bool_decide; [exact Hhidden|].
  case_bool_decide as Hfound; [exact Hhidden|].
  destruct (separatorScan_found budget (length store) 0 store 0 (-1))
    as [Heq|(j & m & Hj & Heq & Hfit)]; [lia|].
  rewrite Heq. simpl. apply lookup_lt_Some in Hj as Hjlt.
  assert (S j < length store)%nat as Hlt.
  { destruct (decide (S j = length store)) as [Hall|]; [|lia].
    rewrite Hall, take_ge in Hfit by done.
    fold (paddedWidth store) in Hfit.
    rewrite paddedWidth_labeledWidth in Hfit by done.
    replace (length store - (0 + j + 1))%nat with 0%nat in Hfit by lia.
    unfold iconsWidth in Hfit. simpl in Hfit.
    unfold ACTION_PADDING in *. lia. }
  replace (Z.to_nat (Z.of_nat j + 1) `min` length store)%nat with (S j)
    by lia.
  apply Exists_app. right.
  destruct (lookup_lt_is_Some_2 store (S j) Hlt) as [m' Hm'].
  rewrite (drop_S _ _ _ Hm'), fmap_cons. apply Exists_cons_hd. by right.
Qed.

End MoreStrategyProperties.

(** ** The further properties on concrete toolbars *)

(** The five actions under the fixed strategy at width 150: three fit. *)
Lemma fixed_assigns_only_visible_witness :
  let tb := toolbarOf fiveActions [configureAction] in
  ∃ p tb',
    _calculateFixedActions toggleMore 150 tb = Some (p, tb')
    ∧ action <$> _primaryActions tb' = action <$> fiveActions
    ∧ size <$> _primaryActions tb' = [40; 50; 30; 60; 45]
    ∧ renderLabel <$> _primaryActions tb' = replicate 5 true
    ∧ visible <$> _primaryActions tb' = [true; true; true; false; false].
Proof.
  intros tb.
  destruct (_calculateFixedActions toggleMore 150 tb)
    as [[p tb']|] eqn:Hcall; [|vm_compute in Hcall; discriminate Hcall].
  destruct (fixed_assigns_only_visible toggleMore 150 tb p tb' Hcall)
    as (_ & Haction & Hsize & Hlabel & _).
  exists p, tb'. split; [reflexivity|]. split; [exact Haction|].
  split; [exact Hsize|]. split; [exact Hlabel|].
  vm_compute in Hcall. injection Hcall as _ <-. reflexivity.
Defined.

(** The same call: the two actions that do not fit come before the
    pre-existing secondary action. *)
Lemma fixed_loses_no_action_witness :
  let tb := toolbarOf fiveActions [configureAction] in
  ∃ p tb',
    _calculateFixedActions toggleMore 150 tb = Some (p, tb')
    ∧ primaryActions p = action <$> take 3 fiveActions
    ∧ secondaryActions p = (action <$> drop 3 fiveActions) ++ [configureAction]
    ∧ ∃ overflow,
        secondaryActions p = overflow ++ [configureAction]
        ∧ primaryActions p ++ overflow = action <$> fiveActions.
Proof.
  intros tb.
  destruct (_calculateFixedActions toggleMore 150 tb)
    as [[p tb']|] eqn:Hcall; [|vm_compute in Hcall; discriminate Hcall].
  destruct (fixed_loses_no_action toggleMore 150 tb p tb' Hcall)
    as (overflow & Hs & Hall).
  exists p, tb'. split; [reflexivity|].
  split; [|split; [|exists overflow; split; [exact Hs|exact Hall]]];
    vm_compute in Hcall; injection Hcall as <- _; reflexivity.
Defined.

(** The same call: three actions take 136 of the 150, a fourth would
    take 204. *)
Lemma fixed_fit_is_greedy_witness :
  let tb := toolbarOf fiveActions [configureAction] in
  ∃ p tb' (k : nat),
    _calculateFixedActions toggleMore 150 tb = Some (p, tb')
    ∧ visible <$> _primaryActions tb'
      = replicate k true ++ replicate (5 - k) false
    ∧ k = 3%nat
    ∧ labeledWidth (take k fiveActions) ≤ 150
    ∧ 150 < labeledWidth (take (S k) fiveActions).
Proof.
  intros tb.
  destruct (_calculateFixedActions toggleMore 150 tb)
    as [[p tb']|] eqn:Hcall; [|vm_compute in Hcall; discriminate Hcall].
  destruct (fixed_fit_is_greedy toggleMore 150 tb p tb' Hcall)
    as (k & Hvisible & Hk & Hfit & Hstop).
  assert (k = 3%nat) as Hk3.
  { vm_compute in Hcall. injection Hcall as _ <-.
    destruct k as [|[|[|[|k]]]]; vm_compute in Hvisible;
      try discriminate Hvisible. reflexivity. }
  exists p, tb', k. split; [reflexivity|]. split; [exact Hvisible|].
  split; [exact Hk3|]. split.
  - apply Hfit. rewrite Hk3. discriminate.
  - apply Hstop. rewrite Hk3. vm_compute. lia.
Defined.

(** The five actions at width 50 under the dynamic strategy: the two
    actions returned are those of the two models left visible. *)
Lemma primary_output_is_the_visible_models_witness :
  let tb := toolbarOf fiveActions [configureAction] in
  ∃ p tb',
    calculateActions toggleMore DynamicLabelStrategy 50 tb = Some (p, tb')
    ∧ visible <$> _primaryActions tb' = [true; true; false; false; false]
    ∧ primaryActions p
      = action <$> filter (shown toggleMore) (_primaryActions tb').
Proof.
  intros tb.
  destruct (calculateActions toggleMore DynamicLabelStrategy 50 tb)
    as [[p tb']|] eqn:Hcall; [|vm_compute in Hcall; discriminate Hcall].
  exists p, tb'. split; [reflexivity|]. split.
  - vm_compute in Hcall. injection Hcall as _ <-. reflexivity.
  - exact (primary_output_is_the_visible_models toggleMore
             DynamicLabelStrategy 50 tb p tb' Hcall).
Defined.

(** The same call: three actions are dropped from the primary output and
    the secondary output is the pre-existing action alone. *)
Lemma dynamic_adds_no_overflow_witness :
  let tb := toolbarOf fiveActions [configureAction] in
  ∃ p tb',
    calculateActions toggleMore DynamicLabelStrategy 50 tb = Some (p, tb')
    ∧ length (primaryActions p) = 2%nat
    ∧ secondaryActions p = [configureAction].
Proof.
  intros tb.
  destruct (calculateActions toggleMore DynamicLabelStrategy 50 tb)
    as [[p tb']|] eqn:Hcall; [|vm_compute in Hcall; discriminate Hcall].
  exists p, tb'. split; [reflexivity|]. split.
  - vm_compute in Hcall. injection Hcall as <- _. reflexivity.
  - exact (dynamic_adds_no_overflow toggleMore 50 tb p tb' Hcall).
Defined.

(** The five actions at width 200: the labels need 257 and the icons 137;
    up to the separator at index 2 the labels take 144 and the two icons
    behind it 50. *)
Lemma dynamic_labels_up_to_last_fitting_separator_witness :
  let tb := toolbarOf fiveActions [configureAction] in
  let actions := withoutSentinel toggleMore (_primaryActions tb) in
  200 < labeledWidth actions
  ∧ iconOnlyWidth (length actions) ≤ 200
  ∧ actions !! 2%nat = Some (model "vs.actions.separator" Separator 30)
  ∧ paddedWidth (take 3 actions) + iconsWidth (length actions - 3) ≤ 200
  ∧ ∃ p tb',
      calculateActions toggleMore DynamicLabelStrategy 200 tb = Some (p, tb')
      ∧ Forall (λ m, visible m = true) (_primaryActions tb')
      ∧ renderLabel <$> _primaryActions tb' = [true; true; true; false; false]
      ∧ primaryActions p = action <$> fiveActions
      ∧ secondaryActions p = [configureAction].
Proof.
  intros tb actions.
  assert (200 < labeledWidth actions) as H1 by reflexivity.
  assert (iconOnlyWidth (length actions) ≤ 200) as H2
    by (vm_compute; discriminate).
  assert (actions !! 2%nat = Some (model "vs.actions.separator" Separator 30))
    as H3 by reflexivity.
  assert (paddedWidth (take 3 actions) + iconsWidth (length actions - 3) ≤ 200)
    as H4 by (vm_compute; discriminate).
  assert (∀ (r' : nat) m',
            (2 < r')%nat → actions !! r' = Some m' →
            class (action m') = Separator →
            ¬ (paddedWidth (take (S r') actions)
               + iconsWidth (length actions - S r') ≤ 200)) as H5.
  { intros r' m' Hlt Hlookup Hsep.
    destruct r' as [|[|[|[|[|r']]]]]; try lia;
      vm_compute in Hlookup; try discriminate Hlookup;
      injection Hlookup as <-; discriminate Hsep. }
  split; [exact H1|]. split; [exact H2|]. split; [exact H3|].
  split; [exact H4|].
  destruct (dynamic_labels_up_to_last_fitting_separator toggleMore 200 tb 2
              (model "vs.actions.separator" Separator 30)
              H1 H2 H3 eq_refl H4 H5)
    as (p & tb' & Hcall & _ & _ & _ & Hvisible & Hlabel & Hp & Hs).
  exists p, tb'. split; [exact Hcall|]. split; [exact Hvisible|].
  split; [exact Hlabel|]. split; [exact Hp|exact Hs].
Defined.

(** The five actions at width 150: the icons fit, but the labels up to the
    only separator with the icons behind it take 194. *)
Lemma dynamic_degrades_without_fitting_separator_witness :
  let tb := toolbarOf fiveActions [configureAction] in
  let actions := withoutSentinel toggleMore (_primaryActions tb) in
  actions ≠ []
  ∧ 150 < labeledWidth actions
  ∧ iconOnlyWidth (length actions) ≤ 150
  ∧ calculateActions toggleMore DynamicLabelStrategy 150 tb
    = _calcuateWithAlllabelsHidden toggleMore (seq 0 5) 150 tb.
Proof.
  intros tb actions.
  assert (actions ≠ []) as H1 by (vm_compute; discriminate).
  assert (150 < labeledWidth actions) as H2 by reflexivity.
  assert (∀ (r : nat) m,
            actions !! r = Some m → class (action m) = Separator →
            ¬ (paddedWidth (take (S r) actions)
               + iconsWidth (length actions - S r) ≤ 150)) as H3.
  { intros r m Hlookup Hsep.
    destruct r as [|[|[|[|[|r]]]]];
      vm_compute in Hlookup; try discriminate Hlookup;
      injection Hlookup as <-; try discriminate Hsep.
    vm_compute. intros Hle. apply Hle. reflexivity. }
  split; [exact H1|]. split; [exact H2|].
  split; [vm_compute; discriminate|].
  exact (dynamic_degrades_without_fitting_separator toggleMore 150 tb
           H1 H2 (or_intror H3)).
Defined.

(** The five actions at width 50: two icons take 50. *)
Lemma degrade_keeps_within_budget_witness :
  let tb := toolbarOf fiveActions [configureAction] in
  ∃ p tb',
    _calcuateWithAlllabelsHidden toggleMore (seq 0 5) 50 tb = Some (p, tb')
    ∧ Forall (λ m, renderLabel m = false) (_primaryActions tb')
    ∧ length (filter (λ m, visible m = true) (_primaryActions tb')) = 2%nat
    ∧ iconOnlyWidth 2 ≤ 50.
Proof.
  intros tb.
  destruct (degrade_keeps_within_budget toggleMore 50 tb)
    as (p & tb' & Hcall & Hlabel & _ & Hbudget).
  assert (length (filter (λ m, visible m = true) (_primaryActions tb'))
          = 2%nat) as Hcount.
  { vm_compute in Hcall. injection Hcall as _ <-. reflexivity. }
  exists p, tb'. split; [exact Hcall|]. split; [exact Hlabel|].
  split; [exact Hcount|]. rewrite <- Hcount. apply Hbudget.
  rewrite Hcount. discriminate.
Defined.

(** After the five actions were degraded at width 50, the first action,
    which is shown, gets the plain view. *)
Lemma degrade_renders_no_label_witness :
  let tb := toolbarOf fiveActions [configureAction] in
  let insertCode :=
    {| id := "notebook.cell.insertCodeCellBelow"; class := MenuItemAction |} in
  ∃ p tb',
    _calcuateWithAlllabelsHidden toggleMore (seq 0 5) 50 tb = Some (p, tb')
    ∧ insertCode ∈ primaryActions p
    ∧ actionProvider selectKernel DynamicLabelStrategy tb' insertCode
      ≠ ActionViewWithLabel
    ∧ actionProvider selectKernel DynamicLabelStrategy tb' insertCode
      = MenuEntryActionViewItem.
Proof.
  intros tb insertCode.
  destruct (_calcuateWithAlllabelsHidden toggleMore (seq 0 5) 50 tb)
    as [[p tb']|] eqn:Hcall; [|vm_compute in Hcall; discriminate Hcall].
  exists p, tb'. split; [reflexivity|].
  split; [|split].
  - vm_compute in Hcall. injection Hcall as <- _. apply list_elem_of_here.
  - exact (degrade_renders_no_label toggleMore selectKernel 50 tb p tb'
             insertCode Hcall).
  - vm_compute in Hcall. injection Hcall as _ <-. reflexivity.
Defined.

(** The five actions at width 300: the run action gets its label. *)
Lemma all_labels_render_labels_witness :
  let tb := toolbarOf fiveActions [configureAction] in
  let execute := {| id := "notebook.execute"; class := MenuItemAction |} in
  withoutSentinel toggleMore (_primaryActions tb) ≠ []
  ∧ labeledWidth (withoutSentinel toggleMore (_primaryActions tb)) ≤ 300
  ∧ id execute ≠ selectKernel
  ∧ ∃ p tb',
      calculateActions toggleMore DynamicLabelStrategy 300 tb = Some (p, tb')
      ∧ execute ∈ primaryActions p
      ∧ actionProvider selectKernel DynamicLabelStrategy tb' execute
        = ActionViewWithLabel.
Proof.
  intros tb execute.
  assert (withoutSentinel toggleMore (_primaryActions tb) ≠ []) as H1
    by (vm_compute; discriminate).
  assert (labeledWidth (withoutSentinel toggleMore (_primaryActions tb)) ≤ 300)
    as H2 by (vm_compute; discriminate).
  assert (id execute ≠ selectKernel) as H3 by (vm_compute; discriminate).
  split; [exact H1|]. split; [exact H2|]. split; [exact H3|].
  destruct (calculateActions toggleMore DynamicLabelStrategy 300 tb)
    as [[p tb']|] eqn:Hcall; [|vm_compute in Hcall; discriminate Hcall].
  assert (execute ∈ primaryActions p) as H4.
  { vm_compute in Hcall. injection Hcall as <- _.
    apply (bool_decide_unpack _). vm_compute. exact I. }
  exists p, tb'. split; [reflexivity|]. split; [exact H4|].
  exact (all_labels_render_labels toggleMore selectKernel 300 tb p tb' execute
           H1 H2 Hcall H4 eq_refl H3).
Defined.

(** The five actions under the fixed strategy at width 150: the first
    action gets its label. *)
Lemma fixed_label_renders_labels_witness :
  let tb := toolbarOf fiveActions [configureAction] in
  let insertCode :=
    {| id := "notebook.cell.insertCodeCellBelow"; class := MenuItemAction |} in
  Forall (λ m, renderLabel m = true) (_primaryActions tb)
  ∧ id insertCode ≠ selectKernel
  ∧ ∃ p tb',
      _calculateFixedActions toggleMore 150 tb = Some (p, tb')
      ∧ insertCode ∈ primaryActions p
      ∧ actionProvider selectKernel FixedLabelStrategy tb' insertCode
        = ActionViewWithLabel.
Proof.
  intros tb insertCode.
  assert (Forall (λ m, renderLabel m = true) (_primaryActions tb)) as H1
    by (apply (bool_decide_unpack _); vm_compute; exact I).
  assert (id insertCode ≠ selectKernel) as H2 by (vm_compute; discriminate).
  split; [exact H1|]. split; [exact H2|].
  destruct (_calculateFixedActions toggleMore 150 tb)
    as [[p tb']|] eqn:Hcall; [|vm_compute in Hcall; discriminate Hcall].
  assert (insertCode ∈ primaryActions p) as H3.
  { vm_compute in Hcall. injection Hcall as <- _. apply list_elem_of_here. }
  exists p, tb'. split; [reflexivity|]. split; [exact H3|].
  exact (fixed_label_renders_labels toggleMore selectKernel 150 tb p tb'
           insertCode H1 Hcall H3 eq_refl H2).
Defined.

(** A container 500 wide with a kernel picker of 100: the five actions,
    which need 265 with their padding, have 384. *)
Lemma computeSizes_fast_path_witness :
  let tb := renderedToolbar fiveActions DynamicLabelStrategy 500 in
  _primaryActions tb ≠ []
  ∧ _canBeVisible (500 - (100 + ACTION_PADDING) - ACTION_PADDING) tb = true
  ∧ ∃ p tb',
      _computeSizes toggleMore tb = Some (Some p, tb')
      ∧ Forall (λ m, visible m = true ∧ renderLabel m = true)
          (_primaryActions tb')
      ∧ primaryActions p = action <$> fiveActions
      ∧ secondaryActions p = [configureAction].
Proof.
  intros tb.
  assert (_primaryActions tb ≠ []) as H1 by (vm_compute; discriminate).
  assert (0 ≤ 22) as H2 by (vm_compute; discriminate).
  assert (0 ≤ 500) as H3 by (vm_compute; discriminate).
  split; [exact H1|]. split; [reflexivity|].
  destruct (computeSizes_fast_path toggleMore tb _ _ _
              eq_refl eq_refl eq_refl H2 H3 H1 eq_refl)
    as (p & tb' & Hcall & _ & _ & _ & Hall & Hp & Hs).
  exists p, tb'. split; [exact Hcall|]. split; [exact Hall|].
  split; [exact Hp|exact Hs].
Defined.

(** The same container before anything was measured: with no rendered
    item nothing happens, and with the five rendered items the cache is
    filled from their actions and widths. *)
Lemma computeSizes_caches_first_witness :
  let tb := renderedToolbar [] DynamicLabelStrategy 500 in
  let unrendered :=
    {| _primaryActions := [];
       _secondaryActions := [configureAction];
       _notebookLeftToolbar := Some [];
       _notebookRightToolbar :=
         Some [({| id := selectKernel; class := MenuItemAction |}, 100)];
       _strategy := DynamicLabelStrategy;
       _dimension := Some {| width := 500; height := 22 |} |} in
  _computeSizes toggleMore unrendered = Some (None, unrendered)
  ∧ _primaryActions (_cacheItemSizes
                       ((λ m, (action m, size m)) <$> fiveActions) tb)
    = fiveActions
  ∧ _computeSizes toggleMore tb
    = _computeSizes toggleMore
        (_cacheItemSizes ((λ m, (action m, size m)) <$> fiveActions) tb).
Proof.
  intros tb unrendered.
  assert (0 ≤ 22) as H2 by (vm_compute; discriminate).
  assert (0 ≤ 500) as H3 by (vm_compute; discriminate).
  destruct (computeSizes_caches_first toggleMore unrendered _ _ _
              eq_refl eq_refl eq_refl H2 H3 eq_refl) as [Hnone _].
  destruct (computeSizes_caches_first toggleMore tb _ _ _
              eq_refl eq_refl eq_refl H2 H3 eq_refl) as [_ Hsome].
  split; [exact (Hnone eq_refl)|].
  destruct (Hsome ltac:(vm_compute; discriminate)) as [Hsame Hcache].
  split; [|exact Hsame]. rewrite Hcache. reflexivity.
Defined.

(** A container 300 wide: the five actions have 184 and need 265, so the
    dynamic strategy is asked to lay them out in 155 and hides labels. *)
Lemma computeSizes_delegation_reduces_witness :
  let tb := renderedToolbar fiveActions DynamicLabelStrategy 300 in
  last (_primaryActions tb)
  = Some (model "notebook.clearAllCellsOutputs" MenuItemAction 45)
  ∧ _canBeVisible (300 - (100 + ACTION_PADDING) - ACTION_PADDING) tb = false
  ∧ ∃ p tb',
      _computeSizes toggleMore tb = Some (Some p, tb')
      ∧ calculateActions toggleMore DynamicLabelStrategy 155 tb
        = Some (p, tb')
      ∧ Exists (λ m, visible m = false ∨ renderLabel m = false)
          (_primaryActions tb').
Proof.
  intros tb.
  assert (0 ≤ 22) as H2 by (vm_compute; discriminate).
  assert (0 ≤ 300) as H3 by (vm_compute; discriminate).
  assert ("notebook.clearAllCellsOutputs" ≠ toggleMore) as H4
    by (vm_compute; discriminate).
  split; [reflexivity|]. split; [reflexivity|].
  destruct (computeSizes_delegation_reduces toggleMore tb _ _ _
              (model "notebook.clearAllCellsOutputs" MenuItemAction 45)
              eq_refl eq_refl eq_refl H2 H3 eq_refl H4 eq_refl)
    as (p & tb' & Hcall & Hstrategy & Hreduced).
  exists p, tb'. split; [exact Hcall|]. split; [exact Hstrategy|].
  exact Hreduced.
Defined.

(** * More properties of the status bar *)

Lemma splice1_at {A} (before after : list A) (x : A) :
  splice1 (Z.of_nat (length before)) (before ++ x :: after) = before ++ after.
Proof.
  unfold splice1. rewrite bool_decide_eq_false_2 by lia.
  rewrite length_app. simpl length.
  replace (Z.to_nat (Z.of_nat (length before)
                     `min` Z.of_nat (length before + S (length after))))
    with (length before) by lia.
  rewrite take_app_length. f_equal.
  rewrite (cons_middle x before after), app_assoc.
  apply drop_app_length'. rewrite length_app. simpl. lia.
Qed.

Lemma splice1_last {A} (arr : list A) :
  splice1 (-1) arr = take (length arr - 1) arr.
Proof.
  unfold splice1. rewrite bool_decide_eq_true_2 by lia.
  destruct arr as [|x arr]; [done|]. simpl length.
  replace (Z.to_nat ((Z.of_nat (S (length arr)) + -1) `max` 0))
    with (length arr) by lia.
  replace (S (length arr) - 1)%nat with (length arr) by lia.
  rewrite drop_ge by (simpl; lia). by rewrite app_nil_r.
Qed.

Lemma findIndex_at {A} (f : A → bool) (before after : list A) (x : A) :
  Forall (λ y, f y = false) before → f x = true →
  findIndex f (before ++ x :: after) = Z.of_nat (length before).
Proof.
  intros Hbefore Hx. unfold findIndex.
  assert (list_find (λ y, f y = true) (before ++ x :: after)
          = Some (length before, x)) as ->; [|done].
  apply list_find_Some. split; [by rewrite list_lookup_middle|].
  split; [done|]. intros j y Hj Hlt.
  rewrite lookup_app_l in Hj by done.
  rewrite Forall_forall in Hbefore.
  rewrite (Hbefore y) by (by eapply list_elem_of_lookup_2). done.
Qed.

Lemma findIndex_none {A} (f : A → bool) (arr : list A) :
  Forall (λ y, f y = false) arr → findIndex f arr = -1.
Proof.
  intros Hall. unfold findIndex.
  assert (list_find (λ y, f y = true) arr = None) as ->; [|done].
  apply list_find_None. eapply Forall_impl; [exact Hall|].
  intros y Hy. by rewrite Hy.
Qed.

(** X16.  Disposing a registration removes the first registered provider
    that is the disposed one and nothing else: the providers before and
    after it keep their order.  In particular registering a provider and
    disposing it restores the list. *)
Theorem unregister_removes_the_provider isProvider svc before p after :
  _providers svc = before ++ p :: after →
  Forall (λ q, isProvider q = false) before →
  isProvider p = true →
  _providers (unregisterStatusBarItemProvider isProvider svc)
  = before ++ after.
Proof.
  intros Hsvc Hbefore Hp. unfold unregisterStatusBarItemProvider. simpl.
  rewrite Hsvc, findIndex_at by done. apply splice1_at.
Qed.

(** X17.  When no registered provider is the disposed one, [findIndex]
    gives [-1] and [splice(-1, 1)] removes the last registered provider. *)
Theorem unregister_absent_removes_the_last isProvider svc :
  Forall (λ q, isProvider q = false) (_providers svc) →
  _providers (unregisterStatusBarItemProvider isProvider svc)
  = take (length (_providers svc) - 1) (_providers svc).
Proof.
  intros Hnone. unfold unregisterStatusBarItemProvider. simpl.
  rewrite findIndex_none by done. apply splice1_last.
Qed.

(** X18.  [getStatusBarItemsForDocument] reports to
    [onUnexpectedExternalError] the errors of the consulted providers that
    throw, each once, and nothing else. *)
Theorem thrown_errors_are_reported svc docUri viewType_ token σ :
  let providers := filter (consulted viewType_) (_providers svc) in
  let σ' := (getStatusBarItemsForDocument svc docUri viewType_ token σ).2 in
  ∃ new,
    unexpected σ' = unexpected σ ++ new
    ∧ new ≡ₚ omap (λ p, match provideStatusBarItems p docUri token with
                        | Returns _ => None
                        | Throws e => Some e
                        end) providers.
Proof.
  simpl. rewrite getStatusBarItemsForDocument_eq. simpl.
  eexists. split; [done|].
  induction (filter _ _) as [|p ps IH]; [done|].
  rewrite fmap_cons. simpl. unfold errorsOf at 1.
  destruct (provideStatusBarItems p docUri token); simpl; by rewrite IH.
Qed.

(** X19.  Registering a provider changes no entry of the providers
    registered before: the result is the old result, followed by the entry
    of the new provider when its view type is the document's or ['*']. *)
Theorem registration_keeps_earlier_entries svc p docUri viewType_ token σ
    results :
  (getStatusBarItemsForDocument svc docUri viewType_ token σ).1
    = Returns results →
  (getStatusBarItemsForDocument (registerStatusBarItemProvider p svc)
     docUri viewType_ token σ).1
  = Returns
      (results
       ++ if decide (viewType p = viewType_ ∨ viewType p = "*")
          then [match provideStatusBarItems p docUri token with
                | Returns (Some l) => l
                | Returns None | Throws _ => {| items := []; dispose := false |}
                end]
          else []).
Proof.
  rewrite !getStatusBarItemsForDocument_eq. simpl.
  intros [= <-]. rewrite filter_app, fmap_app. do 2 f_equal.
  rewrite filter_cons, filter_nil. unfold consulted at 1.
  by destruct (decide _).
Qed.

(** *** The controller *)

Lemma _update_eq svc cancelled c vm σ :
  _viewModel c = Some vm →
  let received :=
    slotOf (notebookDocument_uri vm) {| isCancellationRequested := false |}
      <$> filter (consulted (notebookDocument_viewType vm)) (_providers svc) in
  (_update svc cancelled c σ).1
  = Returns
      (if cancelled
       then {| controller := c; disposed := disposeEach received |}
       else {| controller :=
                 {| _viewModel :=
                      Some {| notebookDocument_uri := notebookDocument_uri vm;
                              notebookDocument_viewType :=
                                notebookDocument_viewType vm;
                              statusBarItems := concat (items <$> received) |};
                    _currentItemLists := received |};
               disposed := disposeEach (_currentItemLists c) |}).
Proof.
  intros Hvm. simpl. unfold _update, bind. rewrite Hvm.
  rewrite getStatusBarItemsForDocument_eq. by destruct cancelled.
Qed.

(** X20.  [_update], when it is not cancelled: it never rejects, and the
    view model then shows the items of the consulted providers in their
    order, none for a provider that threw or resolved to nothing; these
    are the items of the lists the controller now holds. *)
Theorem update_shows_the_items_of_all_providers svc c vm σ :
  _viewModel c = Some vm →
  let providers :=
    filter (consulted (notebookDocument_viewType vm)) (_providers svc) in
  let itemsOfProvider p :=
    match provideStatusBarItems p (notebookDocument_uri vm)
            {| isCancellationRequested := false |} with
    | Returns (Some l) => items l
    | Returns None | Throws _ => []
    end in
  ∃ u vm',
    (_update svc false c σ).1 = Returns u
    ∧ _viewModel (controller u) = Some vm'
    ∧ statusBarItems vm' = concat (itemsOfProvider <$> providers)
    ∧ notebookDocument_uri vm' = notebookDocument_uri vm
    ∧ notebookDocument_viewType vm' = notebookDocument_viewType vm
    ∧ concat (items <$> _currentItemLists (controller u))
      = statusBarItems vm'.
Proof.
  intros Hvm providers itemsOfProvider.
  rewrite (_update_eq _ _ _ vm) by done. simpl.
  eexists _, _. split; [done|]. split; [done|]. simpl.
  fold providers. rewrite <- list_fmap_compose.
  repeat split. f_equal. apply list_fmap_ext. intros _ p _. simpl.
  unfold slotOf, itemsOfProvider.
  by destruct (provideStatusBarItems _ _ _) as [[?|]|].
Qed.

(** X21.  [_update] disposes what it drops: whether it is cancelled or
    not, each list with a [dispose] method that the controller held or
    received from the providers is afterwards either held or disposed,
    once.  A cancelled
    update, or one without a view model, leaves the controller as it
    was. *)
Theorem update_disposes_what_it_drops svc cancelled c σ :
  let received :=
    match _viewModel c with
    | Some vm =>
        slotOf (notebookDocument_uri vm) {| isCancellationRequested := false |}
          <$> filter (consulted (notebookDocument_viewType vm)) (_providers svc)
    | None => []
    end in
  ∃ u,
    (_update svc cancelled c σ).1 = Returns u
    ∧ disposeEach (_currentItemLists c ++ received)
      ≡ₚ disposeEach (_currentItemLists (controller u)) ++ disposed u
    ∧ (cancelled = true → controller u = c)
    ∧ (_viewModel c = None → controller u = c ∧ disposed u = []).
Proof.
  destruct (_viewModel c) as [vm|] eqn:Hvm; cbv zeta.
  - rewrite (_update_eq _ _ _ vm) by done. simpl.
    eexists. split; [done|].
    unfold disposeEach. rewrite filter_app.
    destruct cancelled; simpl.
    + split; [done|]. split; [done|]. done.
    + split; [apply Permutation_app_comm|]. split; done.
  - unfold _update. rewrite Hvm. exists {| controller := c; disposed := [] |}.
    split; [done|]. simpl. rewrite !app_nil_r. done.
Qed.

(** ** The further properties on concrete providers *)

(** Registering the failing provider behind two others and disposing the
    registration gives the two back. *)
Lemma unregister_removes_the_provider_witness :
  let svc :=
    registerStatusBarItemProvider failingProvider
      {| _providers := [jupyterProvider; otherProvider] |} in
  let isProvider q := String.eqb (viewType q) "*" in
  _providers svc = [jupyterProvider; otherProvider] ++ failingProvider :: []
  ∧ Forall (λ q, isProvider q = false) [jupyterProvider; otherProvider]
  ∧ isProvider failingProvider = true
  ∧ _providers (unregisterStatusBarItemProvider isProvider svc)
    = [jupyterProvider; otherProvider].
Proof.
  intros svc isProvider.
  assert (_providers svc
          = [jupyterProvider; otherProvider] ++ failingProvider :: []) as H1
    by reflexivity.
  assert (Forall (λ q, isProvider q = false) [jupyterProvider; otherProvider])
    as H2 by (repeat constructor).
  assert (isProvider failingProvider = true) as H3 by reflexivity.
  split; [exact H1|]. split; [exact H2|]. split; [exact H3|].
  rewrite (unregister_removes_the_provider isProvider svc _ _ _ H1 H2 H3).
  reflexivity.
Defined.

(** Disposing a registration whose provider is no longer in the list
    removes the provider registered last. *)
Lemma unregister_absent_removes_the_last_witness :
  let isProvider (q : INotebookStatusBarItemProvider) := false in
  Forall (λ q, isProvider q = false) (_providers threeProviders)
  ∧ _providers (unregisterStatusBarItemProvider isProvider threeProviders)
    = [jupyterProvider; failingProvider].
Proof.
  intros isProvider.
  assert (Forall (λ q, isProvider q = false) (_providers threeProviders))
    as H1 by (repeat constructor).
  split; [exact H1|].
  rewrite (unregister_absent_removes_the_last isProvider threeProviders H1).
  reflexivity.
Defined.

(** A fourth provider for the notebook: the two entries of the three
    providers stay, and the new entry follows them. *)
Lemma registration_keeps_earlier_entries_witness :
  (getStatusBarItemsForDocument threeProviders "file:///a.ipynb"
     "jupyter-notebook" notCancelled noEffects).1
  = Returns [kernelStatus; {| items := []; dispose := false |}]
  ∧ (getStatusBarItemsForDocument
       (registerStatusBarItemProvider cellProvider threeProviders)
       "file:///a.ipynb" "jupyter-notebook" notCancelled noEffects).1
    = Returns [kernelStatus; {| items := []; dispose := false |};
               disposableStatus].
Proof.
  assert ((getStatusBarItemsForDocument threeProviders "file:///a.ipynb"
             "jupyter-notebook" notCancelled noEffects).1
          = Returns [kernelStatus; {| items := []; dispose := false |}]) as H1
    by reflexivity.
  split; [exact H1|].
  rewrite (registration_keeps_earlier_entries threeProviders cellProvider
             "file:///a.ipynb" "jupyter-notebook" notCancelled noEffects _ H1).
  reflexivity.
Defined.

(** The controller of a notebook with the three providers and the cell
    provider: the view model gets the kernel item and the cell item. *)
Lemma update_shows_the_items_of_all_providers_witness :
  let svc := registerStatusBarItemProvider cellProvider threeProviders in
  _viewModel freshController = Some jupyterViewModel
  ∧ ∃ u vm',
      (_update svc false freshController noEffects).1 = Returns u
      ∧ _viewModel (controller u) = Some vm'
      ∧ statusBarItems vm'
        = [ {| text := "Python 3"; tooltip := None; command := None |};
            {| text := "Cell 3 of 7"; tooltip := None; command := None |} ]
      ∧ concat (items <$> _currentItemLists (controller u))
        = statusBarItems vm'.
Proof.
  intros svc.
  assert (_viewModel freshController = Some jupyterViewModel) as H1
    by reflexivity.
  split; [exact H1|].
  destruct (update_shows_the_items_of_all_providers svc freshController
              jupyterViewModel noEffects H1)
    as (u & vm' & Hcall & Hvm & Hitems & _ & _ & Hheld).
  exists u, vm'. split; [exact Hcall|]. split; [exact Hvm|].
  split; [|exact Hheld]. rewrite Hitems. reflexivity.
Defined.

(** The same update when it is cancelled: the controller keeps the list it
    held, and the list received from the cell provider is disposed. *)
Lemma update_disposes_what_it_drops_witness :
  let svc := registerStatusBarItemProvider cellProvider threeProviders in
  ∃ u,
    (_update svc true freshController noEffects).1 = Returns u
    ∧ controller u = freshController
    ∧ disposed u = [disposableStatus]
    ∧ disposeEach (_currentItemLists freshController
                   ++ [kernelStatus; {| items := []; dispose := false |};
                       disposableStatus])
      ≡ₚ disposeEach (_currentItemLists (controller u)) ++ disposed u.
Proof.
  intros svc.
  destruct (update_disposes_what_it_drops svc true freshController noEffects)
    as (u & Hcall & Hperm & Hcancelled & _).
  exists u. split; [exact Hcall|]. split; [exact (Hcancelled eq_refl)|].
  split; [|exact Hperm].
  vm_compute in Hcall. injection Hcall as <-. reflexivity.
Defined.
